(** * CrowdFunding: a shallow embedding of [src/CrowdFunding.ts]

    A method body is embedded as a computation that reads the call
    context (on-chain state, ledger balance, block height, signer),
    accumulates the pending account update (state writes, transfers,
    events) and stops at the first assertion or range check that does not
    hold: the failure is an exception that ends the function raising it
    and every caller up to the method.  One call is different:
    [contribute] calls the [async] function [ensureContribution] without
    [await], so an exception raised in it ends up in a promise nobody
    looks at, and [contribute] goes on.

    Unsigned integers are embedded as [Z] together with the range check
    that the checked [UInt32]/[UInt64] operations of o1js perform on
    their result. *)

From Stdlib Require Import ZArith Bool List String Lia.
Import ListNotations.

Open Scope string_scope.
Open Scope Z_scope.

(** ** The o1js values the contract uses *)

Module O1js.

(** A public key is a field element and a parity bit. *)
Record PublicKey := { x : Z; isOdd : bool }.

(** [PublicKey.equals] *)
Definition PublicKey_equals (a b : PublicKey) : bool :=
  (x a =? x b) && Bool.eqb (isOdd a) (isOdd b).

(** [UInt32.MAXINT()] and [UInt64.MAXINT()] *)
Definition UInt32_MAXINT : Z := 4294967295.
Definition UInt64_MAXINT : Z := 18446744073709551615.

Definition InUInt32 (z : Z) : Prop := 0 <= z <= UInt32_MAXINT.
Definition InUInt64 (z : Z) : Prop := 0 <= z <= UInt64_MAXINT.

Definition inUInt32 (z : Z) : bool := (0 <=? z) && (z <=? UInt32_MAXINT).
Definition inUInt64 (z : Z) : bool := (0 <=? z) && (z <=? UInt64_MAXINT).

(** Why a call is rejected: an assertion with its message, the range check
    of a checked arithmetic operation, or a division by zero. *)
Inductive Error :=
| AssertFailed (message : string)
| OutOfRange (operation : string)
| DivisionByZero.

End O1js.
Import O1js.

(** ** Events, persisted state, pending account update *)

(** [DeployEvent], [ContributedEvent], [WithdrawnEvent] *)
Inductive Event :=
| Deploy (who : PublicKey) (deadline minimumInvestment hardCap timestamp : Z)
| Contributed (who : PublicKey) (amount timestamp : Z)
| Withdrawn (who : PublicKey) (amount timestamp : Z).

(** The five [@state] fields. *)
Record State := {
  investor : PublicKey;
  deadline : Z;            (* UInt32 *)
  minimumInvestment : Z;   (* UInt64 *)
  hardCap : Z;             (* UInt64 *)
  withdrawnCnt : Z         (* UInt32 *)
}.

(** A balance transfer requested by [send({ to, amount })]. *)
Record Transfer := { from : PublicKey; to : PublicKey; amount : Z }.

(** The two permissions [deploy] overrides on top of [Permissions.default()]. *)
Inductive AuthRequired := Impossible | ImpossibleDuringCurrentVersion.
Record PermissionsUpdate := {
  setVerificationKey : AuthRequired;
  setPermissions : AuthRequired
}.

(** What a call has asked the ledger to do so far: one optional write per
    state field ([State.set]), the permissions, the transfers and the
    events, in program order. *)
Record Tx := {
  set_investor : option PublicKey;
  set_deadline : option Z;
  set_minimumInvestment : option Z;
  set_hardCap : option Z;
  set_withdrawnCnt : option Z;
  set_permissions : option PermissionsUpdate;
  transfers : list Transfer;
  events : list Event
}.

Definition emptyTx : Tx :=
  {| set_investor := None; set_deadline := None;
     set_minimumInvestment := None; set_hardCap := None;
     set_withdrawnCnt := None; set_permissions := None;
     transfers := []; events := [] |}.

(** What a call reads: the contract's address and on-chain state, the
    ledger's balance of that address, the block height, and the signer. *)
Record Context := {
  address : PublicKey;               (* this.address *)
  state : State;                     (* on-chain value of the @state fields *)
  balance : Z;                       (* this.account.balance, UInt64 *)
  blockchainLength : Z;              (* this.network.blockchainLength, UInt32 *)
  sender : PublicKey                 (* this.sender *)
}.

Definition wfState (s : State) : Prop :=
  InUInt32 (deadline s) /\ InUInt64 (minimumInvestment s) /\
  InUInt64 (hardCap s) /\ InUInt32 (withdrawnCnt s).

Definition wfContext (c : Context) : Prop :=
  wfState (state c) /\ InUInt64 (balance c) /\ InUInt32 (blockchainLength c).

(** ** The method monad *)

Inductive Outcome (A : Type) :=
| Done (a : A) (tx : Tx)
| Abort (e : Error) (tx : Tx).
Arguments Done {A} a tx.
Arguments Abort {A} e tx.

Definition M (A : Type) : Type := Context -> Tx -> Outcome A.

Definition ret {A} (a : A) : M A := fun _ tx => Done a tx.

Definition bind {A B} (m : M A) (k : A -> M B) : M B :=
  fun ctx tx =>
    match m ctx tx with
    | Done a tx' => k a ctx tx'
    | Abort e tx' => Abort e tx'
    end.

Notation "x <- m ;; k" := (bind m (fun x => k))
  (at level 61, m at next level, right associativity).
Notation "m ;; k" := (bind m (fun _ => k))
  (at level 61, right associativity).

Definition fail {A} (e : Error) : M A := fun _ tx => Abort e tx.

Definition ask : M Context := fun ctx tx => Done ctx tx.

Definition modify (f : Tx -> Tx) : M unit := fun _ tx => Done tt (f tx).

(** A call of an [async] function that is not awaited.  The body runs at
    once, up to its end or to its first failure (it has no [await] of its
    own); what it wrote by then stays written.  Its result, or its failure,
    goes into the promise the call returns, which the caller drops: the
    caller goes on in both cases. *)
Definition unawaited {A} (m : M A) : M unit :=
  fun ctx tx =>
    match m ctx tx with
    | Done _ tx' => Done tt tx'
    | Abort _ tx' => Done tt tx'
    end.

(** [Bool.assertTrue(message)] and [Bool.assertFalse(message)] *)
Definition assertTrue (b : bool) (message : string) : M unit :=
  if b then ret tt else fail (AssertFailed message).
Definition assertFalse (b : bool) (message : string) : M unit :=
  assertTrue (negb b) message.

(** *** Checked unsigned arithmetic *)

Definition rangeCheck32 (operation : string) (z : Z) : M Z :=
  if inUInt32 z then ret z else fail (OutOfRange operation).
Definition rangeCheck64 (operation : string) (z : Z) : M Z :=
  if inUInt64 z then ret z else fail (OutOfRange operation).

Definition UInt32_add (a b : Z) : M Z := rangeCheck32 "UInt32.add" (a + b).
Definition UInt32_sub (a b : Z) : M Z := rangeCheck32 "UInt32.sub" (a - b).
Definition UInt32_mul (a b : Z) : M Z := rangeCheck32 "UInt32.mul" (a * b).
Definition UInt64_sub (a b : Z) : M Z := rangeCheck64 "UInt64.sub" (a - b).
Definition UInt64_mul (a b : Z) : M Z := rangeCheck64 "UInt64.mul" (a * b).
(** Integer division; the divisor must not be zero. *)
Definition UInt64_div (a b : Z) : M Z :=
  if b =? 0 then fail DivisionByZero else ret (a / b).

(** [a.assertLessThanOrEqual(b, message)] and its siblings. *)
Definition assertLessThanOrEqual (a b : Z) (message : string) : M unit :=
  assertTrue (a <=? b) message.
Definition assertGreaterThanOrEqual (a b : Z) (message : string) : M unit :=
  assertTrue (b <=? a) message.
Definition assertLessThan (a b : Z) (message : string) : M unit :=
  assertTrue (a <? b) message.
Definition assertGreaterThan (a b : Z) (message : string) : M unit :=
  assertTrue (b <? a) message.

(** *** Reads of the context *)

Definition sender_getAndRequireSignature : M PublicKey :=
  c <- ask ;; ret (sender c).
Definition blockchainLength_getAndRequireEquals : M Z :=
  c <- ask ;; ret (blockchainLength c).
Definition balance_getAndRequireEquals : M Z :=
  c <- ask ;; ret (balance c).
Definition this_address : M PublicKey :=
  c <- ask ;; ret (address c).
(** [this.<field>.get()] and [this.<field>.getAndRequireEquals()] both
    return the on-chain value. *)
Definition state_get {A} (field : State -> A) : M A :=
  c <- ask ;; ret (field (state c)).

(** *** Writes to the pending account update *)

Definition investor_set (v : PublicKey) : M unit :=
  modify (fun tx =>
    {| set_investor := Some v; set_deadline := set_deadline tx;
       set_minimumInvestment := set_minimumInvestment tx;
       set_hardCap := set_hardCap tx; set_withdrawnCnt := set_withdrawnCnt tx;
       set_permissions := set_permissions tx;
       transfers := transfers tx; events := events tx |}).
Definition deadline_set (v : Z) : M unit :=
  modify (fun tx =>
    {| set_investor := set_investor tx; set_deadline := Some v;
       set_minimumInvestment := set_minimumInvestment tx;
       set_hardCap := set_hardCap tx; set_withdrawnCnt := set_withdrawnCnt tx;
       set_permissions := set_permissions tx;
       transfers := transfers tx; events := events tx |}).
Definition minimumInvestment_set (v : Z) : M unit :=
  modify (fun tx =>
    {| set_investor := set_investor tx; set_deadline := set_deadline tx;
       set_minimumInvestment := Some v;
       set_hardCap := set_hardCap tx; set_withdrawnCnt := set_withdrawnCnt tx;
       set_permissions := set_permissions tx;
       transfers := transfers tx; events := events tx |}).
Definition hardCap_set (v : Z) : M unit :=
  modify (fun tx =>
    {| set_investor := set_investor tx; set_deadline := set_deadline tx;
       set_minimumInvestment := set_minimumInvestment tx;
       set_hardCap := Some v; set_withdrawnCnt := set_withdrawnCnt tx;
       set_permissions := set_permissions tx;
       transfers := transfers tx; events := events tx |}).
Definition withdrawnCnt_set (v : Z) : M unit :=
  modify (fun tx =>
    {| set_investor := set_investor tx; set_deadline := set_deadline tx;
       set_minimumInvestment := set_minimumInvestment tx;
       set_hardCap := set_hardCap tx; set_withdrawnCnt := Some v;
       set_permissions := set_permissions tx;
       transfers := transfers tx; events := events tx |}).
Definition permissions_set (p : PermissionsUpdate) : M unit :=
  modify (fun tx =>
    {| set_investor := set_investor tx; set_deadline := set_deadline tx;
       set_minimumInvestment := set_minimumInvestment tx;
       set_hardCap := set_hardCap tx; set_withdrawnCnt := set_withdrawnCnt tx;
       set_permissions := Some p;
       transfers := transfers tx; events := events tx |}).

(** [payer.send({ to, amount })] *)
Definition send (payer receiver : PublicKey) (amt : Z) : M unit :=
  modify (fun tx =>
    {| set_investor := set_investor tx; set_deadline := set_deadline tx;
       set_minimumInvestment := set_minimumInvestment tx;
       set_hardCap := set_hardCap tx; set_withdrawnCnt := set_withdrawnCnt tx;
       set_permissions := set_permissions tx;
       transfers := transfers tx ++ [{| from := payer; to := receiver; amount := amt |}];
       events := events tx |}).

(** [this.emitEvent(...)] *)
Definition emitEvent (e : Event) : M unit :=
  modify (fun tx =>
    {| set_investor := set_investor tx; set_deadline := set_deadline tx;
       set_minimumInvestment := set_minimumInvestment tx;
       set_hardCap := set_hardCap tx; set_withdrawnCnt := set_withdrawnCnt tx;
       set_permissions := set_permissions tx;
       transfers := transfers tx;
       events := events tx ++ [e] |}).

(** ** The contract *)

(** [deploy(args)].  [super.deploy(args)] installs the verification key and
    touches none of the fields below; it is left out. *)
Definition deploy (args_deadline args_minimumInvestment args_hardCap : Z) : M unit :=
  permissions_set {| setVerificationKey := ImpossibleDuringCurrentVersion;
                     setPermissions := Impossible |} ;;
  sender <- sender_getAndRequireSignature ;;
  investor_set sender ;;
  deadline_set args_deadline ;;
  minimumInvestment_set args_minimumInvestment ;;
  hardCap_set args_hardCap ;;
  withdrawnCnt_set 0 ;;
  timestamp <- blockchainLength_getAndRequireEquals ;;
  emitEvent (Deploy sender args_deadline args_minimumInvestment args_hardCap timestamp).

(** [async ensureContribution(sender, amount)] *)
Definition ensureContribution (sender : PublicKey) (amount : Z) : M unit :=
  currentTime <- blockchainLength_getAndRequireEquals ;;
  deadline <- state_get deadline ;;
  assertLessThanOrEqual currentTime deadline "Deadline reached" ;;
  investor <- state_get investor ;;
  assertFalse (PublicKey_equals sender investor) "Investor cannot contribute" ;;
  minimumInvestment <- state_get minimumInvestment ;;
  assertGreaterThanOrEqual amount minimumInvestment "Minimum investment not met" ;;
  balance <- balance_getAndRequireEquals ;;
  hardCap <- state_get hardCap ;;
  assertLessThan balance hardCap "HardCap reached".

(** [calculateAmount(amount)] *)
Definition calculateAmount (amount : Z) : M Z :=
  balance <- balance_getAndRequireEquals ;;
  hardCap <- state_get hardCap ;;
  remaining <- UInt64_sub hardCap balance ;;
  ret (if amount <=? remaining then amount else remaining).

(** [contribute(amount)].  Line 69 of the source reads
    [this.ensureContribution(sender, amount);], with no [await]. *)
Definition contribute (amount : Z) : M unit :=
  sender <- sender_getAndRequireSignature ;;
  unawaited (ensureContribution sender amount) ;;
  canContributeAmount <- calculateAmount amount ;;
  self <- this_address ;;
  send sender self canContributeAmount ;;
  timestamp <- blockchainLength_getAndRequireEquals ;;
  emitEvent (Contributed sender canContributeAmount timestamp).

(** [incrementWithdrawal()] *)
Definition incrementWithdrawal : M unit :=
  cnt <- state_get withdrawnCnt ;;
  next <- UInt32_add cnt 1 ;;
  withdrawnCnt_set next.

(** [ensureWithdraw()] *)
Definition ensureWithdraw : M Z :=
  sender <- sender_getAndRequireSignature ;;
  investor <- state_get investor ;;
  assertTrue (PublicKey_equals sender investor) "Only investor can withdraw" ;;
  totalAmount <- balance_getAndRequireEquals ;;
  assertGreaterThan totalAmount 0 "No balance to withdraw" ;;
  currentTime <- blockchainLength_getAndRequireEquals ;;
  deadline <- state_get deadline ;;
  assertGreaterThanOrEqual currentTime deadline "Deadline reached" ;;
  blocksSinceDeadline <- UInt32_sub currentTime deadline ;;
  withdrawnCnt <- state_get withdrawnCnt ;;
  let isInitialWithdrawal := withdrawnCnt =? 0 in
  withdrawalInterval <- UInt32_mul withdrawnCnt 200 ;;
  let isSubsequentWithdrawal := withdrawalInterval <=? blocksSinceDeadline in
  assertTrue (isInitialWithdrawal || isSubsequentWithdrawal) "Withdrawal not allowed" ;;
  incrementWithdrawal ;;
  ret (if isInitialWithdrawal then 20 else 10).

(** [withdraw()] *)
Definition withdraw : M unit :=
  withdrawPercentage <- ensureWithdraw ;;
  hardCap <- state_get hardCap ;;
  product <- UInt64_mul hardCap withdrawPercentage ;;
  amountToWithdraw <- UInt64_div product 100 ;;
  sender <- sender_getAndRequireSignature ;;
  self <- this_address ;;
  send self sender amountToWithdraw ;;
  timestamp <- blockchainLength_getAndRequireEquals ;;
  emitEvent (Withdrawn sender amountToWithdraw timestamp).

(** The read-only accessors. *)
Definition getInvestor : M PublicKey := state_get investor.
Definition getDeadline : M Z := state_get deadline.
Definition getMinimumInvestment : M Z := state_get minimumInvestment.
Definition getHardCap : M Z := state_get hardCap.

(** ** Running a call and applying it *)

(** A call starts from an empty account update. *)
Definition call {A} (m : M A) (ctx : Context) : Outcome A := m ctx emptyTx.

Definition succeeds {A} (m : M A) (ctx : Context) : Prop :=
  exists a tx, call m ctx = Done a tx.

Definition override {A} (old : A) (w : option A) : A :=
  match w with Some v => v | None => old end.

(** The state after an accepted account update. *)
Definition commit (s : State) (tx : Tx) : State :=
  {| investor := override (investor s) (set_investor tx);
     deadline := override (deadline s) (set_deadline tx);
     minimumInvestment := override (minimumInvestment s) (set_minimumInvestment tx);
     hardCap := override (hardCap s) (set_hardCap tx);
     withdrawnCnt := override (withdrawnCnt s) (set_withdrawnCnt tx) |}.

(** The balance of account [a] once a transfer is applied. *)
Definition applyTransfer (a : PublicKey) (bal : Z) (t : Transfer) : Z :=
  bal - (if PublicKey_equals (from t) a then amount t else 0)
      + (if PublicKey_equals (to t) a then amount t else 0).

Definition balanceAfter (a : PublicKey) (bal : Z) (ts : list Transfer) : Z :=
  fold_left (applyTransfer a) ts bal.

(** What the ledger is asked to apply: the account update of an accepted
    call, nothing for a rejected one. *)
Definition settled {A} (m : M A) (ctx : Context) : Tx :=
  match call m ctx with
  | Done _ tx => tx
  | Abort _ _ => emptyTx
  end.

Definition accepted {A} (m : M A) (ctx : Context) : bool :=
  match call m ctx with
  | Done _ _ => true
  | Abort _ _ => false
  end.

(** What persists of the campaign between calls: its state fields and its
    event log.  Balance and block height belong to the ledger, which hands
    their current values to every call. *)
Record Chain := {
  zkapp : State;
  eventLog : list Event
}.

(** The two methods callable after deployment. *)
Inductive Method :=
| Contribute (amount : Z)
| Withdraw.

Definition method (m : Method) : M unit :=
  match m with
  | Contribute amount => contribute amount
  | Withdraw => withdraw
  end.

(** A call as the ledger receives it: who signs, the height and the campaign
    balance at that moment, the method, and the ledger's own verdict on the
    account update the method builds (signatures valid, payers able to pay). *)
Record Request := {
  req_sender : PublicKey;
  req_height : Z;
  req_balance : Z;
  req_method : Method;
  req_ledgerApplies : bool
}.

Definition contextOf (self : PublicKey) (c : Chain) (r : Request) : Context :=
  {| address := self; state := zkapp c; balance := req_balance r;
     blockchainLength := req_height r; sender := req_sender r |}.

(** A call succeeds when the method accepts it and the ledger applies it. *)
Definition successful (self : PublicKey) (c : Chain) (r : Request) : bool :=
  accepted (method (req_method r)) (contextOf self c r) && req_ledgerApplies r.

(** What a call changes on the chain: the account update of a successful
    call, nothing otherwise. *)
Definition applied (self : PublicKey) (c : Chain) (r : Request) : Tx :=
  if req_ledgerApplies r
  then settled (method (req_method r)) (contextOf self c r)
  else emptyTx.

(** One call against the chain: a successful call is applied as a whole, any
    other applies nothing. *)
Definition exec (self : PublicKey) (c : Chain) (r : Request) : Chain :=
  let tx := applied self c r in
  {| zkapp := commit (zkapp c) tx;
     eventLog := eventLog c ++ events tx |}.

Definition isWithdraw (m : Method) : bool :=
  match m with Withdraw => true | Contribute _ => false end.

Definition run (self : PublicKey) (c : Chain) (rs : list Request) : Chain :=
  fold_left (exec self) rs c.

(** How many withdrawals of [rs] succeed when [rs] runs from [c]. *)
Fixpoint successfulWithdrawals (self : PublicKey) (c : Chain) (rs : list Request) : Z :=
  match rs with
  | [] => 0
  | r :: rs' =>
      (if isWithdraw (req_method r) && successful self c r then 1 else 0)
      + successfulWithdrawals self (exec self c r) rs'
  end.

(** ** Notions used by the statements *)

(** The amount [calculateAmount] returns, as a function of what it reads. *)
Definition clamp (amount hardCap balance : Z) : Z :=
  if amount <=? hardCap - balance then amount else hardCap - balance.

(** The percentage [ensureWithdraw] returns. *)
Definition percentage (withdrawnCnt : Z) : Z :=
  if withdrawnCnt =? 0 then 20 else 10.

(** The account update of a call that makes one transfer and logs one
    event. *)
Definition transferred (payer receiver : PublicKey) (paid : Z) (e : Event) : Tx :=
  {| set_investor := None; set_deadline := None;
     set_minimumInvestment := None; set_hardCap := None;
     set_withdrawnCnt := None; set_permissions := None;
     transfers := [{| from := payer; to := receiver; amount := paid |}];
     events := [e] |}.

(** The same call with another balance handed over by the ledger. *)
Definition withBalance (ctx : Context) (b : Z) : Context :=
  {| address := address ctx; state := state ctx; balance := b;
     blockchainLength := blockchainLength ctx; sender := sender ctx |}.

(** The account update a call had built when it finished or stopped. *)
Definition pending {A} (o : Outcome A) : Tx :=
  match o with
  | Done _ tx => tx
  | Abort _ tx => tx
  end.

(** The four configuration fields of a state. *)
Definition configuration (s : State) : PublicKey * Z * Z * Z :=
  (investor s, deadline s, minimumInvestment s, hardCap s).

(** The four preconditions of [contribute] as the specification lists them. *)
Definition contributePreconditions (amt : Z) (ctx : Context) : Prop :=
  blockchainLength ctx <= deadline (state ctx) /\
  sender ctx <> investor (state ctx) /\
  minimumInvestment (state ctx) <= amt /\
  balance ctx < hardCap (state ctx).

(** The four preconditions of [withdraw] as the specification lists them. *)
Definition withdrawPreconditions (ctx : Context) : Prop :=
  sender ctx = investor (state ctx) /\
  0 < balance ctx /\
  deadline (state ctx) <= blockchainLength ctx /\
  (withdrawnCnt (state ctx) = 0 \/
   blockchainLength ctx - deadline (state ctx) >= withdrawnCnt (state ctx) * 200).

(** ** The campaign of the specification's scenario *)

Module Scenario.

Definition investorKey : PublicKey := {| x := 11; isOdd := false |}.
Definition backerKey : PublicKey := {| x := 22; isOdd := true |}.
Definition campaignKey : PublicKey := {| x := 33; isOdd := false |}.

(** hardCap = 1000, minimumInvestment = 10, deadline = 100. *)
Definition campaign (withdrawals : Z) : State :=
  {| investor := investorKey; deadline := 100; minimumInvestment := 10;
     hardCap := 1000; withdrawnCnt := withdrawals |}.

Definition at_ (s : State) (bal height : Z) (who : PublicKey) : Context :=
  {| address := campaignKey; state := s; balance := bal;
     blockchainLength := height; sender := who |}.

(** A campaign whose hard cap times twenty does not fit 64 bits. *)
Definition hugeCampaign : State :=
  {| investor := investorKey; deadline := 100; minimumInvestment := 10;
     hardCap := 9223372036854775808; withdrawnCnt := 0 |}.

(** The chain right after [deploy], called by the investor at height 1. *)
Definition deployed : Chain :=
  let blank := {| investor := campaignKey; deadline := 0; minimumInvestment := 0;
                  hardCap := 0; withdrawnCnt := 0 |} in
  let tx := settled (deploy 100 10 1000) (at_ blank 0 1 investorKey) in
  {| zkapp := commit blank tx; eventLog := events tx |}.

Definition request (who : PublicKey) (height bal : Z) (m : Method) : Request :=
  {| req_sender := who; req_height := height; req_balance := bal;
     req_method := m; req_ledgerApplies := true |}.

(** The six calls of the scenario, each with the balance the ledger shows. *)
Definition calls : list Request :=
  [ request backerKey 50 0 (Contribute 600);
    request backerKey 60 600 (Contribute 500);
    request backerKey 70 1000 (Contribute 10);
    request investorKey 150 1000 Withdraw;
    request investorKey 200 800 Withdraw;
    request investorKey 350 800 Withdraw ].

End Scenario.

(** ** Notions for whole runs *)

(** The chain a [deploy] call leaves behind. *)
Definition deployChain (ctx : Context) (d m h : Z) : Chain :=
  let tx := settled (deploy d m h) ctx in
  {| zkapp := commit (state ctx) tx; eventLog := events tx |}.

Definition isContributed (e : Event) : bool :=
  match e with Contributed _ _ _ => true | _ => false end.

Definition isDeploy (e : Event) : bool :=
  match e with Deploy _ _ _ _ _ => true | _ => false end.

(** The sum of the amounts of the Withdrawn events of a log. *)
Fixpoint withdrawnTotal (log : list Event) : Z :=
  match log with
  | [] => 0
  | Withdrawn _ paid _ :: rest => paid + withdrawnTotal rest
  | _ :: rest => withdrawnTotal rest
  end.

(** The sum of the amounts of the Contributed events of a log. *)
Fixpoint contributedTotal (log : list Event) : Z :=
  match log with
  | [] => 0
  | Contributed _ paid _ :: rest => paid + contributedTotal rest
  | _ :: rest => contributedTotal rest
  end.

(** What the first [k] withdrawals pay together: 20 percent once, then 10
    percent each, every amount rounded down on its own. *)
Definition payoutUpTo (cap k : Z) : Z :=
  if k <=? 0 then 0 else cap * 20 / 100 + (k - 1) * (cap * 10 / 100).

(** The event a successful call appends to the log. *)
Definition eventOf (self : PublicKey) (c : Chain) (r : Request) : Event :=
  match req_method r with
  | Contribute amt =>
      Contributed (req_sender r)
        (clamp amt (hardCap (zkapp c)) (req_balance r)) (req_height r)
  | Withdraw =>
      Withdrawn (req_sender r)
        (hardCap (zkapp c) * percentage (withdrawnCnt (zkapp c)) / 100) (req_height r)
  end.

(** The transfer a successful call requests. *)
Definition transferOf (self : PublicKey) (c : Chain) (r : Request) : Transfer :=
  match req_method r with
  | Contribute amt =>
      {| from := req_sender r; to := self;
         amount := clamp amt (hardCap (zkapp c)) (req_balance r) |}
  | Withdraw =>
      {| from := self; to := req_sender r;
         amount := hardCap (zkapp c) * percentage (withdrawnCnt (zkapp c)) / 100 |}
  end.

(** How many calls of [rs] succeed when [rs] runs from [c]. *)
Fixpoint successfulCalls (self : PublicKey) (c : Chain) (rs : list Request) : nat :=
  match rs with
  | [] => O
  | r :: rs' =>
      ((if successful self c r then 1 else 0)
       + successfulCalls self (exec self c r) rs')%nat
  end.

(** The withdrawal counter is no further than the schedule allows at height
    [H]: nothing withdrawn yet, or the last withdrawal's gate
    [(withdrawnCnt - 1) * 200] has been reached. *)
Definition onSchedule (H : Z) (s : State) : Prop :=
  withdrawnCnt s <= 0 \/ (withdrawnCnt s - 1) * 200 <= H - deadline s.

(** The amount an event carries is a UInt64. *)
Definition amountInRange (e : Event) : Prop :=
  match e with
  | Deploy _ _ _ _ _ => True
  | Contributed _ paid _ => InUInt64 paid
  | Withdrawn _ paid _ => InUInt64 paid
  end.

(** A withdrawal event agrees with the configuration: it is signed by the
    investor and stamped no earlier than the deadline.  Nothing is asked of
    the other events. *)
Definition eventFits (s : State) (e : Event) : Prop :=
  match e with
  | Deploy _ _ _ _ _ => True
  | Contributed _ _ _ => True
  | Withdrawn who _ timestamp => who = investor s /\ deadline s <= timestamp
  end.

(** The amount a call asks to contribute (none for a withdrawal). *)
Definition asked (r : Request) : Z :=
  match req_method r with
  | Contribute amt => amt
  | Withdraw => 0
  end.

(** The amount a Contributed event carries (none for the other events). *)
Definition contributedAmount (e : Event) : Z :=
  match e with
  | Contributed _ paid _ => paid
  | _ => 0
  end.

(** The largest count [withdrawnCnt.mul(200)] accepts. *)
Definition lastWithdrawalCount : Z := 21474836.

(** The same request with the balance the ledger shows replaced. *)
Definition withFunds (r : Request) (bal : Z) : Request :=
  {| req_sender := req_sender r; req_height := req_height r; req_balance := bal;
     req_method := req_method r; req_ledgerApplies := req_ledgerApplies r |}.

(** A run in which the campaign's balance changes by nothing but the
    transfers of the calls themselves: every call sees the balance the
    previous ones left. *)
Definition fundedExec (self : PublicKey) (cb : Chain * Z) (r : Request) : Chain * Z :=
  let r' := withFunds r (snd cb) in
  (exec self (fst cb) r',
   balanceAfter self (snd cb) (transfers (applied self (fst cb) r'))).

Definition fundedRun (self : PublicKey) (c : Chain) (bal : Z) (rs : list Request)
  : Chain * Z :=
  fold_left (fundedExec self) rs (c, bal).

(** ** Basic facts about the embedding *)

Lemma PublicKey_equals_eq (a b : PublicKey) :
  PublicKey_equals a b = true <-> a = b.
Proof.
  unfold PublicKey_equals. destruct a as [xa oa], b as [xb ob]; simpl.
  rewrite andb_true_iff, Z.eqb_eq, eqb_true_iff.
  split.
  - intros [-> ->]. reflexivity.
  - intros H. inversion H. auto.
Qed.

Lemma PublicKey_equals_neq (a b : PublicKey) :
  PublicKey_equals a b = false <-> a <> b.
Proof.
  rewrite <- PublicKey_equals_eq. destruct (PublicKey_equals a b); split; congruence.
Qed.

Lemma PublicKey_equals_refl (a : PublicKey) : PublicKey_equals a a = true.
Proof. apply PublicKey_equals_eq. reflexivity. Qed.

Lemma inUInt32_spec (z : Z) : inUInt32 z = true <-> InUInt32 z.
Proof. unfold inUInt32, InUInt32. rewrite andb_true_iff, !Z.leb_le. tauto. Qed.

Lemma inUInt64_spec (z : Z) : inUInt64 z = true <-> InUInt64 z.
Proof. unfold inUInt64, InUInt64. rewrite andb_true_iff, !Z.leb_le. tauto. Qed.

Ltac unfold_method :=
  unfold call, contribute, withdraw, deploy, ensureContribution, calculateAmount,
    ensureWithdraw, incrementWithdrawal,
    assertLessThanOrEqual, assertGreaterThanOrEqual, assertLessThan,
    assertGreaterThan, assertFalse, assertTrue,
    UInt32_add, UInt32_sub, UInt32_mul, UInt64_sub, UInt64_mul, UInt64_div,
    rangeCheck32, rangeCheck64,
    sender_getAndRequireSignature, blockchainLength_getAndRequireEquals,
    balance_getAndRequireEquals, this_address, state_get,
    investor_set, deadline_set, minimumInvestment_set, hardCap_set,
    withdrawnCnt_set, permissions_set, send, emitEvent,
    unawaited, bind, ret, fail, ask, modify.

Ltac case_if :=
  match goal with
  | |- context [if ?b then _ else _] => destruct b eqn:?
  end.

Lemma clamp_min (amount hardCap balance : Z) :
  clamp amount hardCap balance = Z.min amount (hardCap - balance).
Proof. unfold clamp. destruct (Z.leb_spec amount (hardCap - balance)); lia. Qed.

(** [ensureContribution], assertion by assertion. *)
Lemma ensureContribution_cases (who : PublicKey) (amt : Z) (ctx : Context) :
  call (ensureContribution who amt) ctx =
  if negb (blockchainLength ctx <=? deadline (state ctx)) then
    Abort (AssertFailed "Deadline reached") emptyTx
  else if PublicKey_equals who (investor (state ctx)) then
    Abort (AssertFailed "Investor cannot contribute") emptyTx
  else if negb (minimumInvestment (state ctx) <=? amt) then
    Abort (AssertFailed "Minimum investment not met") emptyTx
  else if negb (balance ctx <? hardCap (state ctx)) then
    Abort (AssertFailed "HardCap reached") emptyTx
  else Done tt emptyTx.
Proof.
  unfold_method. unfold emptyTx.
  repeat (case_if; simpl; try reflexivity; try discriminate).
Qed.

(** [contribute], check by check: the one check that can stop it is the
    range check of [hardCap.sub(balance)] in [calculateAmount]. *)
Lemma contribute_cases (amt : Z) (ctx : Context) :
  call (contribute amt) ctx =
  if negb (inUInt64 (hardCap (state ctx) - balance ctx)) then
    Abort (OutOfRange "UInt64.sub") emptyTx
  else
    let accepted := clamp amt (hardCap (state ctx)) (balance ctx) in
    Done tt
      {| set_investor := None; set_deadline := None;
         set_minimumInvestment := None; set_hardCap := None;
         set_withdrawnCnt := None; set_permissions := None;
         transfers := [{| from := sender ctx; to := address ctx; amount := accepted |}];
         events := [Contributed (sender ctx) accepted (blockchainLength ctx)] |}.
Proof.
  unfold_method. unfold clamp, emptyTx.
  repeat (case_if; simpl; try reflexivity; try discriminate).
Qed.

(** [withdraw], assertion by assertion. *)
Lemma withdraw_cases (ctx : Context) :
  let cnt := withdrawnCnt (state ctx) in
  let since := blockchainLength ctx - deadline (state ctx) in
  let bumped :=
    {| set_investor := None; set_deadline := None;
       set_minimumInvestment := None; set_hardCap := None;
       set_withdrawnCnt := Some (cnt + 1); set_permissions := None;
       transfers := []; events := [] |} in
  call withdraw ctx =
  if negb (PublicKey_equals (sender ctx) (investor (state ctx))) then
    Abort (AssertFailed "Only investor can withdraw") emptyTx
  else if negb (0 <? balance ctx) then
    Abort (AssertFailed "No balance to withdraw") emptyTx
  else if negb (deadline (state ctx) <=? blockchainLength ctx) then
    Abort (AssertFailed "Deadline reached") emptyTx
  else if negb (inUInt32 since) then
    Abort (OutOfRange "UInt32.sub") emptyTx
  else if negb (inUInt32 (cnt * 200)) then
    Abort (OutOfRange "UInt32.mul") emptyTx
  else if negb ((cnt =? 0) || (cnt * 200 <=? since)) then
    Abort (AssertFailed "Withdrawal not allowed") emptyTx
  else if negb (inUInt32 (cnt + 1)) then
    Abort (OutOfRange "UInt32.add") emptyTx
  else if negb (inUInt64 (hardCap (state ctx) * percentage cnt)) then
    Abort (OutOfRange "UInt64.mul") bumped
  else
    let paid := hardCap (state ctx) * percentage cnt / 100 in
    Done tt
      {| set_investor := None; set_deadline := None;
         set_minimumInvestment := None; set_hardCap := None;
         set_withdrawnCnt := Some (cnt + 1); set_permissions := None;
         transfers := [{| from := address ctx; to := sender ctx; amount := paid |}];
         events := [Withdrawn (sender ctx) paid (blockchainLength ctx)] |}.
Proof.
  unfold_method. unfold percentage, emptyTx.
  repeat (case_if; simpl; try reflexivity; try discriminate).
Qed.

Lemma inUInt32_false (z : Z) : inUInt32 z = false <-> ~ InUInt32 z.
Proof. rewrite <- inUInt32_spec. destruct (inUInt32 z); split; congruence. Qed.

Lemma inUInt64_false (z : Z) : inUInt64 z = false <-> ~ InUInt64 z.
Proof. rewrite <- inUInt64_spec. destruct (inUInt64 z); split; congruence. Qed.

(** Case analysis on every test of the goal, each turned into the
    proposition it decides. *)
Ltac split_tests :=
  repeat match goal with
  | |- context [?a <=? ?b] => destruct (Z.leb_spec a b)
  | |- context [?a <? ?b] => destruct (Z.ltb_spec a b)
  | |- context [?a =? ?b] => destruct (Z.eqb_spec a b)
  | |- context [PublicKey_equals ?a ?b] =>
      let E := fresh "E" in
      destruct (PublicKey_equals a b) eqn:E;
      [apply PublicKey_equals_eq in E | apply PublicKey_equals_neq in E]
  | |- context [inUInt32 ?z] =>
      let E := fresh "E" in
      destruct (inUInt32 z) eqn:E;
      [apply inUInt32_spec in E | apply inUInt32_false in E]
  | |- context [inUInt64 ?z] =>
      let E := fresh "E" in
      destruct (inUInt64 z) eqn:E;
      [apply inUInt64_spec in E | apply inUInt64_false in E]
  end;
  cbn [negb orb andb].

Ltac unfold_ranges :=
  unfold wfContext, wfState, InUInt32, InUInt64, UInt32_MAXINT, UInt64_MAXINT in *.

Ltac absurd_case := exfalso; first [lia | congruence | contradiction].

(** Closes a goal about an outcome that is already known: an equation
    between outcomes, "is accepted", "is not accepted", or an equivalence
    with a conjunction of arithmetic facts. *)
Ltac settle :=
  lazymatch goal with
  | |- _ <-> _ =>
      split;
      [ intros (? & ? & ?);
        first [discriminate | repeat split; first [lia | assumption | congruence]]
      | intros ?;
        first [do 2 eexists; reflexivity
              | repeat match goal with H : _ /\ _ |- _ => destruct H end;
                absurd_case] ]
  | |- ~ _ =>
      intros (? & ? & ?); first [discriminate | absurd_case]
  | |- _ -> _ => intro; settle
  | |- _ = _ => first [reflexivity | absurd_case]
  | |- exists _, _ => first [do 2 eexists; reflexivity | absurd_case]
  | |- _ => first [lia | assumption | congruence | absurd_case]
  end.

(** ** Contribution *)

(** C1. An accepted [contribute(amount)] requests one transfer, from the
    signer to the campaign, of [min(amount, hardCap - preBalance)]; the
    campaign's balance grows by exactly that amount, which is at most the
    room left under the hard cap, so the new balance does not exceed
    [hardCap]; and the Contributed event carries that accepted amount.
    The signer's account is not the campaign's own account. *)
Theorem contribute_accepts_clamped_amount (amt : Z) (ctx : Context) (tx : Tx) :
  sender ctx <> address ctx ->
  call (contribute amt) ctx = Done tt tx ->
  let preBalance := balance ctx in
  let postBalance := balanceAfter (address ctx) preBalance (transfers tx) in
  let acceptedAmount := Z.min amt (hardCap (state ctx) - preBalance) in
  transfers tx =
    [{| from := sender ctx; to := address ctx; amount := acceptedAmount |}] /\
  postBalance - preBalance = acceptedAmount /\
  acceptedAmount <= hardCap (state ctx) - preBalance /\
  postBalance <= hardCap (state ctx) /\
  events tx = [Contributed (sender ctx) acceptedAmount (blockchainLength ctx)].
Proof.
  intros Hself Hcall. rewrite contribute_cases in Hcall.
  revert Hcall. split_tests; try discriminate.
  intros Hcall. injection Hcall as <-. cbn zeta.
  rewrite <- clamp_min. cbn [transfers events].
  assert (Hpay : balanceAfter (address ctx) (balance ctx)
            [{| from := sender ctx; to := address ctx;
                amount := clamp amt (hardCap (state ctx)) (balance ctx) |}]
          = balance ctx + clamp amt (hardCap (state ctx)) (balance ctx)).
  { unfold balanceAfter, applyTransfer; cbn.
    rewrite (proj2 (PublicKey_equals_neq _ _) Hself), PublicKey_equals_refl. lia. }
  rewrite Hpay. rewrite clamp_min. unfold InUInt64 in *. repeat split; lia.
Qed.

Lemma contribute_accepts_clamped_amount_witness :
  let ctx := Scenario.at_ (Scenario.campaign 0) 600 60 Scenario.backerKey in
  exists tx,
    call (contribute 500) ctx = Done tt tx /\
    balanceAfter (address ctx) 600 (transfers tx) = 1000 /\
    events tx = [Contributed Scenario.backerKey 400 60].
Proof.
  eexists. split; [reflexivity|].
  pose proof (contribute_accepts_clamped_amount 500
    (Scenario.at_ (Scenario.campaign 0) 600 60 Scenario.backerKey) _
    ltac:(discriminate) eq_refl) as H.
  cbn in H. destruct H as (_ & _ & _ & _ & Hev).
  split; [reflexivity | exact Hev].
Defined.

(** C2 does not hold of the code.  In each of four calls one precondition
    is violated and [ensureContribution] fails with the reason string of
    that precondition, yet [contribute] is accepted: at a height after the
    deadline, signed by the investor, below the minimum investment (9 is
    charged where the minimum is 10), and with the hard cap already met
    (0 is charged). *)
Theorem contribute_accepted_with_a_precondition_violated :
  (~ contributePreconditions 600
       (Scenario.at_ (Scenario.campaign 0) 0 150 Scenario.backerKey) /\
   call (ensureContribution Scenario.backerKey 600)
     (Scenario.at_ (Scenario.campaign 0) 0 150 Scenario.backerKey)
   = Abort (AssertFailed "Deadline reached") emptyTx /\
   call (contribute 600)
     (Scenario.at_ (Scenario.campaign 0) 0 150 Scenario.backerKey)
   = Done tt (transferred Scenario.backerKey Scenario.campaignKey 600
                (Contributed Scenario.backerKey 600 150))) /\
  (~ contributePreconditions 600
       (Scenario.at_ (Scenario.campaign 0) 0 50 Scenario.investorKey) /\
   call (ensureContribution Scenario.investorKey 600)
     (Scenario.at_ (Scenario.campaign 0) 0 50 Scenario.investorKey)
   = Abort (AssertFailed "Investor cannot contribute") emptyTx /\
   call (contribute 600)
     (Scenario.at_ (Scenario.campaign 0) 0 50 Scenario.investorKey)
   = Done tt (transferred Scenario.investorKey Scenario.campaignKey 600
                (Contributed Scenario.investorKey 600 50))) /\
  (~ contributePreconditions 9
       (Scenario.at_ (Scenario.campaign 0) 0 50 Scenario.backerKey) /\
   call (ensureContribution Scenario.backerKey 9)
     (Scenario.at_ (Scenario.campaign 0) 0 50 Scenario.backerKey)
   = Abort (AssertFailed "Minimum investment not met") emptyTx /\
   call (contribute 9)
     (Scenario.at_ (Scenario.campaign 0) 0 50 Scenario.backerKey)
   = Done tt (transferred Scenario.backerKey Scenario.campaignKey 9
                (Contributed Scenario.backerKey 9 50))) /\
  (~ contributePreconditions 10
       (Scenario.at_ (Scenario.campaign 0) 1000 70 Scenario.backerKey) /\
   call (ensureContribution Scenario.backerKey 10)
     (Scenario.at_ (Scenario.campaign 0) 1000 70 Scenario.backerKey)
   = Abort (AssertFailed "HardCap reached") emptyTx /\
   call (contribute 10)
     (Scenario.at_ (Scenario.campaign 0) 1000 70 Scenario.backerKey)
   = Done tt (transferred Scenario.backerKey Scenario.campaignKey 0
                (Contributed Scenario.backerKey 0 70))).
Proof.
  unfold contributePreconditions.
  repeat split; try reflexivity; cbn; intros (H1 & H2 & H3 & H4);
    first [lia | apply H2; reflexivity].
Qed.

(** ** Withdrawal *)

(** C3, as stated, fails: with a hard cap of 2^63 the investor, after the
    deadline, with a positive balance and no withdrawal made yet, meets all
    four preconditions, and the call is still rejected, by the range check
    of [hardCap.mul(withdrawPercentage)]. *)
Lemma withdraw_rejected_with_all_preconditions_met :
  wfContext (Scenario.at_ Scenario.hugeCampaign 1 150 Scenario.investorKey) /\
  withdrawPreconditions (Scenario.at_ Scenario.hugeCampaign 1 150 Scenario.investorKey) /\
  ~ succeeds withdraw (Scenario.at_ Scenario.hugeCampaign 1 150 Scenario.investorKey) /\
  exists tx,
    call withdraw (Scenario.at_ Scenario.hugeCampaign 1 150 Scenario.investorKey)
    = Abort (OutOfRange "UInt64.mul") tx.
Proof.
  split; [unfold_ranges; cbn; lia|].
  split; [unfold withdrawPreconditions; cbn; repeat split; first [lia | left; reflexivity]|].
  split.
  - intros (a & tx & H). vm_compute in H. discriminate H.
  - eexists. vm_compute. reflexivity.
Qed.

(** C3, amended. [withdraw()] is accepted if and only if the signer is the
    investor, the balance is strictly positive, the block height is at least
    [deadline], either [withdrawnCnt] is 0 or [height - deadline] is at least
    [withdrawnCnt * 200], and moreover [hardCap] times the percentage (20 for
    the first withdrawal, 10 afterwards) fits 64 bits.  The first of the four
    preconditions that fails rejects the call with its reason string, the
    fourth under the proviso that [withdrawnCnt * 200] fits 32 bits.  A
    signer other than the investor is always rejected, and so is any call
    below the deadline. *)
Theorem withdraw_succeeds_iff_preconditions_and_range (ctx : Context) :
  wfContext ctx ->
  (succeeds withdraw ctx <->
     withdrawPreconditions ctx /\
     hardCap (state ctx) * percentage (withdrawnCnt (state ctx)) <= UInt64_MAXINT) /\
  (sender ctx <> investor (state ctx) ->
     call withdraw ctx = Abort (AssertFailed "Only investor can withdraw") emptyTx) /\
  (sender ctx = investor (state ctx) ->
   balance ctx <= 0 ->
     call withdraw ctx = Abort (AssertFailed "No balance to withdraw") emptyTx) /\
  (sender ctx = investor (state ctx) ->
   0 < balance ctx ->
   blockchainLength ctx < deadline (state ctx) ->
     call withdraw ctx = Abort (AssertFailed "Deadline reached") emptyTx) /\
  (sender ctx = investor (state ctx) ->
   0 < balance ctx ->
   deadline (state ctx) <= blockchainLength ctx ->
   withdrawnCnt (state ctx) <> 0 ->
   blockchainLength ctx - deadline (state ctx) < withdrawnCnt (state ctx) * 200 ->
   withdrawnCnt (state ctx) * 200 <= UInt32_MAXINT ->
     call withdraw ctx = Abort (AssertFailed "Withdrawal not allowed") emptyTx) /\
  (sender ctx <> investor (state ctx) -> ~ succeeds withdraw ctx) /\
  (blockchainLength ctx < deadline (state ctx) -> ~ succeeds withdraw ctx).
Proof.
  intros Hwf. unfold succeeds, withdrawPreconditions.
  pose proof (withdraw_cases ctx) as Hc. cbv zeta in Hc. rewrite Hc. clear Hc.
  unfold percentage.
  split_tests; unfold_ranges; cbn zeta;
    repeat match goal with |- _ /\ _ => split end; settle.
Qed.

Lemma withdraw_succeeds_iff_preconditions_and_range_witness :
  let ctx := Scenario.at_ (Scenario.campaign 1) 800 350 Scenario.investorKey in
  wfContext ctx /\ succeeds withdraw ctx.
Proof.
  assert (Hwf : wfContext (Scenario.at_ (Scenario.campaign 1) 800 350 Scenario.investorKey)).
  { unfold_ranges. cbn. lia. }
  split; [exact Hwf|].
  apply (proj1 (withdraw_succeeds_iff_preconditions_and_range _ Hwf)).
  unfold withdrawPreconditions, percentage, UInt64_MAXINT. cbn.
  repeat split; first [lia | right; lia].
Defined.

(** What an accepted [withdraw] asks for, in one place. *)
Lemma withdraw_done (ctx : Context) (tx : Tx) :
  call withdraw ctx = Done tt tx ->
  let cnt := withdrawnCnt (state ctx) in
  let paid := hardCap (state ctx) * percentage cnt / 100 in
  withdrawPreconditions ctx /\
  InUInt32 (cnt + 1) /\
  InUInt64 (hardCap (state ctx) * percentage cnt) /\
  tx = {| set_investor := None; set_deadline := None;
          set_minimumInvestment := None; set_hardCap := None;
          set_withdrawnCnt := Some (cnt + 1); set_permissions := None;
          transfers := [{| from := address ctx; to := sender ctx; amount := paid |}];
          events := [Withdrawn (sender ctx) paid (blockchainLength ctx)] |}.
Proof.
  intros Hcall. pose proof (withdraw_cases ctx) as Hc. cbv zeta in Hc.
  rewrite Hc in Hcall. clear Hc. revert Hcall. unfold withdrawPreconditions.
  split_tests; try discriminate; intros Hcall; injection Hcall as <-;
    cbn zeta; unfold InUInt32, InUInt64 in *; repeat split;
    first [assumption | lia].
Qed.

(** C4. The first accepted [withdraw] (pre-state [withdrawnCnt = 0]) requests
    one transfer, from the campaign to the investor, of exactly
    [hardCap * 20 / 100] with truncating division, and leaves
    [withdrawnCnt = 1]: the percentage is chosen from the count read before
    the increment. *)
Theorem first_withdraw_pays_twenty_percent (ctx : Context) (tx : Tx) :
  withdrawnCnt (state ctx) = 0 ->
  call withdraw ctx = Done tt tx ->
  let paid := hardCap (state ctx) * 20 / 100 in
  transfers tx =
    [{| from := address ctx; to := investor (state ctx); amount := paid |}] /\
  paid = Z.quot (hardCap (state ctx) * 20) 100 /\
  events tx = [Withdrawn (investor (state ctx)) paid (blockchainLength ctx)] /\
  withdrawnCnt (commit (state ctx) tx) = 1.
Proof.
  intros Hcnt Hcall. apply withdraw_done in Hcall. cbv zeta in Hcall.
  destruct Hcall as ((Hwho & _) & _ & Hrange & ->).
  rewrite Hcnt in *. unfold percentage in *. cbn in *. rewrite Hwho.
  repeat split.
  symmetry. apply Z.quot_div_nonneg; unfold InUInt64 in Hrange; lia.
Qed.

Lemma first_withdraw_pays_twenty_percent_witness :
  exists tx,
    call withdraw (Scenario.at_ (Scenario.campaign 0) 1000 150 Scenario.investorKey)
    = Done tt tx /\
    transfers tx =
      [{| from := Scenario.campaignKey; to := Scenario.investorKey; amount := 200 |}] /\
    withdrawnCnt (commit (Scenario.campaign 0) tx) = 1.
Proof.
  eexists. split; [reflexivity|].
  pose proof (first_withdraw_pays_twenty_percent
    (Scenario.at_ (Scenario.campaign 0) 1000 150 Scenario.investorKey) _
    eq_refl eq_refl) as H.
  cbv zeta in H. destruct H as (Ht & _ & _ & Hc).
  split; [exact Ht | exact Hc].
Defined.

(** C5. For every [N >= 2], the N-th accepted [withdraw] (pre-state
    [withdrawnCnt = N - 1]) requests one transfer to the investor of exactly
    [hardCap * 10 / 100] with truncating division, and it is accepted only
    when [height - deadline >= (N - 1) * 200]. *)
Theorem later_withdraw_pays_ten_percent (N : Z) (ctx : Context) (tx : Tx) :
  2 <= N ->
  withdrawnCnt (state ctx) = N - 1 ->
  call withdraw ctx = Done tt tx ->
  let paid := hardCap (state ctx) * 10 / 100 in
  transfers tx =
    [{| from := address ctx; to := investor (state ctx); amount := paid |}] /\
  paid = Z.quot (hardCap (state ctx) * 10) 100 /\
  blockchainLength ctx - deadline (state ctx) >= (N - 1) * 200 /\
  withdrawnCnt (commit (state ctx) tx) = N.
Proof.
  intros HN Hcnt Hcall. apply withdraw_done in Hcall. cbv zeta in Hcall.
  destruct Hcall as ((Hwho & _ & _ & Hgate) & _ & Hrange & ->).
  rewrite Hcnt in *. unfold percentage in *.
  destruct (Z.eqb_spec (N - 1) 0) as [Hz | _]; [lia|].
  cbn. rewrite Hwho. repeat split.
  - symmetry. apply Z.quot_div_nonneg; unfold InUInt64 in Hrange; lia.
  - lia.
  - lia.
Qed.

Lemma later_withdraw_pays_ten_percent_witness :
  exists tx,
    call withdraw (Scenario.at_ (Scenario.campaign 1) 800 350 Scenario.investorKey)
    = Done tt tx /\
    transfers tx =
      [{| from := Scenario.campaignKey; to := Scenario.investorKey; amount := 100 |}] /\
    withdrawnCnt (commit (Scenario.campaign 1) tx) = 2.
Proof.
  eexists. split; [reflexivity|].
  pose proof (later_withdraw_pays_ten_percent 2
    (Scenario.at_ (Scenario.campaign 1) 800 350 Scenario.investorKey) _
    ltac:(lia) eq_refl eq_refl) as H.
  cbv zeta in H. destruct H as (Ht & _ & _ & Hc).
  split; [exact Ht | exact Hc].
Defined.

(** C9. The amount an accepted [withdraw] transfers is
    [hardCap * 20 / 100] or [hardCap * 10 / 100], chosen by the count read
    before the increment, and the balance enters only through the test
    [balance > 0]: with any other positive balance the very same account
    update is accepted, so whenever that balance is smaller than the amount,
    the transfer requested from the campaign exceeds what the campaign
    holds. *)
Theorem withdraw_amount_ignores_balance (ctx : Context) (tx : Tx) (b : Z) :
  call withdraw ctx = Done tt tx ->
  0 < b ->
  let paid := hardCap (state ctx) * percentage (withdrawnCnt (state ctx)) / 100 in
  transfers tx = [{| from := address ctx; to := sender ctx; amount := paid |}] /\
  call withdraw (withBalance ctx b) = Done tt tx /\
  (b < paid ->
   exists t, In t (transfers tx) /\ from t = address ctx /\
             balance (withBalance ctx b) < amount t).
Proof.
  intros Hcall Hb. pose proof Hcall as Hdone.
  apply withdraw_done in Hdone. cbv zeta in Hdone.
  destruct Hdone as (_ & _ & _ & Htx). cbv zeta.
  split; [rewrite Htx; reflexivity|]. split.
  - pose proof (withdraw_cases ctx) as Hc. cbv zeta in Hc. rewrite Hc in Hcall. clear Hc.
    pose proof (withdraw_cases (withBalance ctx b)) as Hc. cbv zeta in Hc.
    rewrite Hc. clear Hc. cbn [withBalance address state balance blockchainLength sender].
    revert Hcall.
    destruct (Z.ltb_spec 0 b) as [_ | Hn]; [|lia].
    destruct (0 <? balance ctx); [|destruct (PublicKey_equals _ _); discriminate].
    cbn [negb]. exact (fun H => H).
  - intros Hlt. eexists. rewrite Htx. cbn. split; [left; reflexivity|].
    split; [reflexivity | exact Hlt].
Qed.

Lemma withdraw_amount_ignores_balance_witness :
  exists tx t,
    call withdraw (Scenario.at_ (Scenario.campaign 0) 1 150 Scenario.investorKey)
    = Done tt tx /\
    In t (transfers tx) /\ from t = Scenario.campaignKey /\ 1 < amount t.
Proof.
  pose proof (withdraw_amount_ignores_balance
    (Scenario.at_ (Scenario.campaign 0) 1000 150 Scenario.investorKey) _ 1
    eq_refl ltac:(lia)) as H.
  cbv zeta in H. destruct H as (_ & Hcall & Hover).
  destruct (Hover ltac:(cbn; lia)) as (t & Hin & Hfrom & Hlt).
  eexists. exists t. split; [exact Hcall|].
  split; [exact Hin|]. split; [exact Hfrom | exact Hlt].
Defined.

(** C10 does not hold of the code in [contribute].  With a balance of 1001
    above a hard cap of 1000, on a well-formed context, [ensureContribution]
    fails its assertion "HardCap reached", [contribute] goes on all the same
    and stops in the range check of [hardCap.sub(balance)]. *)
Theorem contribute_subtraction_underflows :
  wfContext (Scenario.at_ (Scenario.campaign 0) 1001 60 Scenario.backerKey) /\
  call (ensureContribution Scenario.backerKey 500)
    (Scenario.at_ (Scenario.campaign 0) 1001 60 Scenario.backerKey)
  = Abort (AssertFailed "HardCap reached") emptyTx /\
  call (contribute 500)
    (Scenario.at_ (Scenario.campaign 0) 1001 60 Scenario.backerKey)
  = Abort (OutOfRange "UInt64.sub") emptyTx.
Proof.
  split; [unfold_ranges; cbn; lia|]. split; reflexivity.
Qed.

(** In [withdraw] the guard does come first: [currentTime.sub(deadline)]
    never fails its range check. *)
Lemma withdraw_subtraction_is_guarded (ctx : Context) (tx : Tx) :
  wfContext ctx ->
  call withdraw ctx <> Abort (OutOfRange "UInt32.sub") tx.
Proof.
  intros Hwf. pose proof (withdraw_cases ctx) as Hc. cbv zeta in Hc.
  rewrite Hc. clear Hc.
  split_tests; unfold_ranges; cbn zeta; try discriminate; exfalso; lia.
Qed.

(** Had the assertions of [ensureContribution] passed, the subtraction of
    [calculateAmount] would be in range. *)
Lemma guarded_subtraction_in_range (amt : Z) (ctx : Context) :
  wfContext ctx ->
  call (ensureContribution (sender ctx) amt) ctx = Done tt emptyTx ->
  call (UInt64_sub (hardCap (state ctx)) (balance ctx)) ctx
  = Done (hardCap (state ctx) - balance ctx) emptyTx.
Proof.
  intros Hwf. rewrite ensureContribution_cases. unfold_method.
  split_tests; unfold_ranges; try discriminate; intros _;
    first [reflexivity | exfalso; lia].
Qed.

(** ** Calls in sequence *)

(** Neither method ever writes one of the four configuration fields. *)
Lemma method_never_writes_configuration (m : Method) (ctx : Context) :
  let tx := pending (call (method m) ctx) in
  set_investor tx = None /\ set_deadline tx = None /\
  set_minimumInvestment tx = None /\ set_hardCap tx = None.
Proof.
  destruct m as [amt|]; cbn [method].
  - rewrite contribute_cases.
    repeat (case_if; cbn; try (repeat split; reflexivity)).
  - pose proof (withdraw_cases ctx) as Hc. cbv zeta in Hc. rewrite Hc. clear Hc.
    repeat (case_if; cbn; try (repeat split; reflexivity)).
Qed.

(** The only write to [withdrawnCnt] is the increment of an accepted
    [withdraw]. *)
Lemma settled_withdrawnCnt (m : Method) (ctx : Context) :
  set_withdrawnCnt (settled (method m) ctx) =
  if isWithdraw m && accepted (method m) ctx
  then Some (withdrawnCnt (state ctx) + 1) else None.
Proof.
  unfold settled, accepted. destruct m as [amt|]; cbn [method isWithdraw andb].
  - rewrite contribute_cases. repeat (case_if; cbn; try reflexivity).
  - pose proof (withdraw_cases ctx) as Hc. cbv zeta in Hc. rewrite Hc. clear Hc.
    repeat (case_if; cbn; try reflexivity).
Qed.

Lemma applied_withdrawnCnt (self : PublicKey) (c : Chain) (r : Request) :
  set_withdrawnCnt (applied self c r) =
  if isWithdraw (req_method r) && successful self c r
  then Some (withdrawnCnt (zkapp c) + 1) else None.
Proof.
  unfold applied, successful. destruct (req_ledgerApplies r).
  - rewrite settled_withdrawnCnt, andb_true_r. reflexivity.
  - rewrite !andb_false_r. reflexivity.
Qed.

Lemma applied_configuration (self : PublicKey) (c : Chain) (r : Request) :
  let tx := applied self c r in
  set_investor tx = None /\ set_deadline tx = None /\
  set_minimumInvestment tx = None /\ set_hardCap tx = None.
Proof.
  pose proof (method_never_writes_configuration (req_method r) (contextOf self c r)) as H.
  cbv zeta in *. unfold applied, settled.
  destruct (req_ledgerApplies r); [|repeat split].
  destruct (call (method (req_method r)) (contextOf self c r)); cbn in *; [exact H|].
  repeat split.
Qed.

Lemma exec_withdrawnCnt (self : PublicKey) (c : Chain) (r : Request) :
  withdrawnCnt (zkapp (exec self c r)) =
  withdrawnCnt (zkapp c) +
  (if isWithdraw (req_method r) && successful self c r then 1 else 0).
Proof.
  unfold exec. cbn [zkapp commit withdrawnCnt].
  rewrite applied_withdrawnCnt.
  destruct (isWithdraw _ && successful _ _ _); cbn; lia.
Qed.

Lemma run_cons (self : PublicKey) (c : Chain) (r : Request) (rs : list Request) :
  run self c (r :: rs) = run self (exec self c r) rs.
Proof. reflexivity. Qed.

Lemma run_withdrawnCnt (self : PublicKey) (rs : list Request) :
  forall c,
    withdrawnCnt (zkapp (run self c rs)) =
    withdrawnCnt (zkapp c) + successfulWithdrawals self c rs.
Proof.
  induction rs as [|r rs IH]; intros c.
  - cbn. lia.
  - rewrite run_cons, IH, exec_withdrawnCnt. cbn [successfulWithdrawals]. lia.
Qed.

Lemma successfulWithdrawals_nonneg (self : PublicKey) (rs : list Request) :
  forall c, 0 <= successfulWithdrawals self c rs.
Proof.
  induction rs as [|r rs IH]; intros c; cbn [successfulWithdrawals].
  - lia.
  - specialize (IH (exec self c r)).
    destruct (isWithdraw _ && successful _ _ _); lia.
Qed.

Lemma exec_configuration (self : PublicKey) (c : Chain) (r : Request) :
  configuration (zkapp (exec self c r)) = configuration (zkapp c).
Proof.
  unfold exec, configuration. cbn [zkapp commit investor deadline minimumInvestment hardCap].
  destruct (applied_configuration self c r) as (-> & -> & -> & ->).
  reflexivity.
Qed.

Lemma run_configuration (self : PublicKey) (rs : list Request) :
  forall c, configuration (zkapp (run self c rs)) = configuration (zkapp c).
Proof.
  induction rs as [|r rs IH]; intros c.
  - reflexivity.
  - rewrite run_cons, IH. apply exec_configuration.
Qed.

(** C6. [deploy] always goes through and leaves [withdrawnCnt = 0]; one call
    changes [withdrawnCnt] by exactly 1 when it is a successful [withdraw]
    and not at all otherwise; so over any sequence of calls the counter has
    grown by the number of successful withdrawals, and it never decreases. *)
Theorem withdrawnCnt_counts_successful_withdrawals :
  (forall d m h ctx,
     exists tx, call (deploy d m h) ctx = Done tt tx /\
                withdrawnCnt (commit (state ctx) tx) = 0) /\
  (forall self c r,
     withdrawnCnt (zkapp (exec self c r)) =
     withdrawnCnt (zkapp c) +
     (if isWithdraw (req_method r) && successful self c r then 1 else 0)) /\
  (forall self c rs,
     withdrawnCnt (zkapp (run self c rs)) =
     withdrawnCnt (zkapp c) + successfulWithdrawals self c rs) /\
  (forall self c rs,
     withdrawnCnt (zkapp c) <= withdrawnCnt (zkapp (run self c rs))).
Proof.
  split; [|split; [|split]].
  - intros d m h ctx. eexists. split; reflexivity.
  - apply exec_withdrawnCnt.
  - intros self c rs. apply run_withdrawnCnt.
  - intros self c rs. rewrite run_withdrawnCnt.
    pose proof (successfulWithdrawals_nonneg self rs c). lia.
Qed.

(** C7. Whether it is accepted or rejected, a [contribute] or [withdraw]
    call never writes [investor], [deadline], [minimumInvestment] or
    [hardCap]: these four fields are the same after any call and after any
    sequence of calls, so a call that changes the state changes
    [withdrawnCnt] only. *)
Theorem configuration_fields_are_never_written :
  (forall m ctx,
     set_investor (pending (call (method m) ctx)) = None /\
     set_deadline (pending (call (method m) ctx)) = None /\
     set_minimumInvestment (pending (call (method m) ctx)) = None /\
     set_hardCap (pending (call (method m) ctx)) = None) /\
  (forall self c r,
     investor (zkapp (exec self c r)) = investor (zkapp c) /\
     deadline (zkapp (exec self c r)) = deadline (zkapp c) /\
     minimumInvestment (zkapp (exec self c r)) = minimumInvestment (zkapp c) /\
     hardCap (zkapp (exec self c r)) = hardCap (zkapp c)) /\
  (forall self c rs,
     investor (zkapp (run self c rs)) = investor (zkapp c) /\
     deadline (zkapp (run self c rs)) = deadline (zkapp c) /\
     minimumInvestment (zkapp (run self c rs)) = minimumInvestment (zkapp c) /\
     hardCap (zkapp (run self c rs)) = hardCap (zkapp c)).
Proof.
  split; [|split].
  - intros m ctx. apply method_never_writes_configuration.
  - intros self c r. pose proof (exec_configuration self c r) as H.
    unfold configuration in H. inversion H. repeat split; assumption.
  - intros self c rs. pose proof (run_configuration self rs c) as H.
    unfold configuration in H. inversion H. repeat split; assumption.
Qed.

Lemma commit_emptyTx (s : State) : commit s emptyTx = s.
Proof. destruct s. reflexivity. Qed.

Lemma exec_nothing_applied (self : PublicKey) (c : Chain) (r : Request) :
  applied self c r = emptyTx -> exec self c r = c.
Proof.
  intros H. unfold exec. rewrite H. cbn [events].
  rewrite commit_emptyTx, app_nil_r. destruct c; reflexivity.
Qed.

(** A call the ledger refuses changes nothing either. *)
Lemma refused_call_has_no_effect (self : PublicKey) (c : Chain) (r : Request) :
  req_ledgerApplies r = false -> exec self c r = c.
Proof.
  intros H. apply exec_nothing_applied. unfold applied. rewrite H. reflexivity.
Qed.

(** C8 does not hold of the code for [contribute].  A contribution of 600
    made at height 150, after the deadline 100, violates a precondition
    ([ensureContribution] fails with "Deadline reached"), and it is applied
    all the same: the transfer of 600 raises the balance and a Contributed
    event is logged. *)
Theorem late_contribution_is_applied :
  call (ensureContribution Scenario.backerKey 600)
    (contextOf Scenario.campaignKey Scenario.deployed
       (Scenario.request Scenario.backerKey 150 0 (Contribute 600)))
  = Abort (AssertFailed "Deadline reached") emptyTx /\
  exec Scenario.campaignKey Scenario.deployed
    (Scenario.request Scenario.backerKey 150 0 (Contribute 600))
  = {| zkapp := Scenario.campaign 0;
       eventLog := [ Deploy Scenario.investorKey 100 10 1000 1;
                     Contributed Scenario.backerKey 600 150 ] |} /\
  balanceAfter Scenario.campaignKey 0
    (transfers (applied Scenario.campaignKey Scenario.deployed
       (Scenario.request Scenario.backerKey 150 0 (Contribute 600))))
  = 600.
Proof. repeat split. Qed.

(** In [withdraw] every assertion comes before the first write: a
    [withdraw] stopped by an assertion has written, transferred and logged
    nothing, and changes nothing on the chain. *)
Lemma withdraw_assertions_precede_effects
    (self : PublicKey) (c : Chain) (r : Request) (message : string) (tx : Tx) :
  req_method r = Withdraw ->
  call withdraw (contextOf self c r) = Abort (AssertFailed message) tx ->
  tx = emptyTx /\ exec self c r = c.
Proof.
  intros Hm Hcall. split.
  - revert Hcall.
    pose proof (withdraw_cases (contextOf self c r)) as Hc. cbv zeta in Hc.
    rewrite Hc. clear Hc.
    repeat (case_if; cbn zeta; try discriminate; try (intros [= _ <-]; reflexivity)).
  - apply exec_nothing_applied. unfold applied, settled. rewrite Hm. cbn [method].
    rewrite Hcall. destruct (req_ledgerApplies r); reflexivity.
Qed.

(** The N-th successful withdrawal of a run that starts with no withdrawal
    made: the number of successful withdrawals before it is the counter it
    reads, and the configuration it reads is the initial one. *)
Lemma nth_successful_withdraw_of_a_run
    (self : PublicKey) (c : Chain) (rs : list Request) (r : Request) (tx : Tx) (N : Z) :
  withdrawnCnt (zkapp c) = 0 ->
  N = successfulWithdrawals self c rs + 1 ->
  2 <= N ->
  call withdraw (contextOf self (run self c rs) r) = Done tt tx ->
  transfers tx =
    [{| from := self; to := investor (zkapp c);
        amount := hardCap (zkapp c) * 10 / 100 |}] /\
  req_height r - deadline (zkapp c) >= (N - 1) * 200.
Proof.
  intros Hzero HN Hge Hcall.
  pose proof (run_withdrawnCnt self rs c) as Hcnt.
  pose proof (run_configuration self rs c) as Hcfg.
  unfold configuration in Hcfg. inversion Hcfg as [[Hinv Hdl Hmin Hcap]].
  apply withdraw_done in Hcall. cbv zeta in Hcall.
  destruct Hcall as ((Hwho & _ & _ & Hgate) & _ & _ & ->).
  cbn [contextOf address state sender blockchainLength balance] in *.
  rewrite Hcnt, Hzero in *. rewrite Hwho, Hinv, Hcap. rewrite Hdl in Hgate.
  unfold percentage.
  destruct (Z.eqb_spec (0 + successfulWithdrawals self c rs) 0) as [Hz | _]; [lia|].
  cbn. split; [reflexivity | lia].
Qed.

(** ** The scenario of the specification, call by call *)

Example scenario_deployed_state : zkapp Scenario.deployed = Scenario.campaign 0.
Proof. reflexivity. Qed.

Example scenario_outcome :
  run Scenario.campaignKey Scenario.deployed Scenario.calls =
  {| zkapp := Scenario.campaign 2;
     eventLog :=
       [ Deploy Scenario.investorKey 100 10 1000 1;
         Contributed Scenario.backerKey 600 50;
         Contributed Scenario.backerKey 400 60;
         Contributed Scenario.backerKey 0 70;
         Withdrawn Scenario.investorKey 200 150;
         Withdrawn Scenario.investorKey 100 350 ] |}.
Proof. reflexivity. Qed.

Example scenario_successful_withdrawals :
  successfulWithdrawals Scenario.campaignKey Scenario.deployed Scenario.calls = 2.
Proof. reflexivity. Qed.

(** The balances of the scenario: 0, 600, 1000, then 800 and 700. *)
Example scenario_balances :
  let pays (bal height : Z) (who : PublicKey) (s : State) (m : Method) :=
    balanceAfter Scenario.campaignKey bal
      (transfers (settled (method m) (Scenario.at_ s bal height who))) in
  pays 0 50 Scenario.backerKey (Scenario.campaign 0) (Contribute 600) = 600 /\
  pays 600 60 Scenario.backerKey (Scenario.campaign 0) (Contribute 500) = 1000 /\
  pays 1000 70 Scenario.backerKey (Scenario.campaign 0) (Contribute 10) = 1000 /\
  pays 1000 150 Scenario.investorKey (Scenario.campaign 0) Withdraw = 800 /\
  pays 800 200 Scenario.investorKey (Scenario.campaign 1) Withdraw = 800 /\
  pays 800 350 Scenario.investorKey (Scenario.campaign 1) Withdraw = 700.
Proof. repeat split. Qed.

(** ** Further properties of the contract *)

(** What an accepted [contribute] asks for, in one place. *)
Lemma contribute_done (amt : Z) (ctx : Context) (tx : Tx) :
  call (contribute amt) ctx = Done tt tx ->
  let paid := clamp amt (hardCap (state ctx)) (balance ctx) in
  InUInt64 (hardCap (state ctx) - balance ctx) /\
  tx = {| set_investor := None; set_deadline := None;
          set_minimumInvestment := None; set_hardCap := None;
          set_withdrawnCnt := None; set_permissions := None;
          transfers := [{| from := sender ctx; to := address ctx; amount := paid |}];
          events := [Contributed (sender ctx) paid (blockchainLength ctx)] |}.
Proof.
  intros Hcall. rewrite contribute_cases in Hcall. revert Hcall.
  split_tests; try discriminate; intros Hcall; injection Hcall as <-;
    cbn zeta; split; [assumption | reflexivity].
Qed.

Lemma applied_unsuccessful (self : PublicKey) (c : Chain) (r : Request) :
  successful self c r = false -> applied self c r = emptyTx.
Proof.
  unfold successful, applied, accepted, settled.
  destruct (req_ledgerApplies r); [|reflexivity].
  destruct (call (method (req_method r)) (contextOf self c r)); [discriminate|reflexivity].
Qed.

Lemma applied_successful (self : PublicKey) (c : Chain) (r : Request) :
  successful self c r = true ->
  call (method (req_method r)) (contextOf self c r) = Done tt (applied self c r).
Proof.
  unfold successful, applied, accepted, settled.
  destruct (req_ledgerApplies r); [|rewrite andb_false_r; discriminate].
  destruct (call (method (req_method r)) (contextOf self c r)) as [[] tx|];
    [reflexivity | discriminate].
Qed.

(** A successful call appends exactly its event, any other call none. *)
Lemma applied_events (self : PublicKey) (c : Chain) (r : Request) :
  events (applied self c r) =
  if successful self c r then [eventOf self c r] else [].
Proof.
  destruct (successful self c r) eqn:Hs.
  - apply applied_successful in Hs. unfold eventOf.
    destruct (req_method r) as [amt|]; cbn [method] in Hs.
    + apply contribute_done in Hs. cbv zeta in Hs.
      destruct Hs as (_ & ->). reflexivity.
    + apply withdraw_done in Hs. cbv zeta in Hs.
      destruct Hs as (_ & _ & _ & ->). reflexivity.
  - rewrite (applied_unsuccessful _ _ _ Hs). reflexivity.
Qed.

Lemma exec_eventLog (self : PublicKey) (c : Chain) (r : Request) :
  eventLog (exec self c r) =
  (eventLog c ++ (if successful self c r then [eventOf self c r] else []))%list.
Proof. unfold exec. cbn [eventLog]. rewrite applied_events. reflexivity. Qed.

Lemma exec_hardCap (self : PublicKey) (c : Chain) (r : Request) :
  hardCap (zkapp (exec self c r)) = hardCap (zkapp c).
Proof.
  pose proof (exec_configuration self c r) as H. unfold configuration in H.
  inversion H. reflexivity.
Qed.

Lemma exec_deadline (self : PublicKey) (c : Chain) (r : Request) :
  deadline (zkapp (exec self c r)) = deadline (zkapp c).
Proof.
  pose proof (exec_configuration self c r) as H. unfold configuration in H.
  inversion H. reflexivity.
Qed.

Lemma call_state_get {A} (field : State -> A) (ctx : Context) :
  call (state_get field) ctx = Done (field (state ctx)) emptyTx.
Proof. reflexivity. Qed.

(** X1. After [deploy(deadline, minimumInvestment, hardCap)] signed by some
    key, and after any sequence of [contribute] and [withdraw] calls, the
    four accessors return that key and those three arguments, and they
    write nothing. *)
Theorem accessors_return_what_deploy_stored
    (self : PublicKey) (ctx : Context) (d m h : Z) (rs : list Request) (r : Request) :
  let c := run self (deployChain ctx d m h) rs in
  call getInvestor (contextOf self c r) = Done (sender ctx) emptyTx /\
  call getDeadline (contextOf self c r) = Done d emptyTx /\
  call getMinimumInvestment (contextOf self c r) = Done m emptyTx /\
  call getHardCap (contextOf self c r) = Done h emptyTx.
Proof.
  cbv zeta. unfold getInvestor, getDeadline, getMinimumInvestment, getHardCap.
  rewrite !call_state_get. cbn [contextOf state].
  pose proof (run_configuration self rs (deployChain ctx d m h)) as H.
  unfold configuration in H. injection H as Hi Hd Hm Hh.
  rewrite Hi, Hd, Hm, Hh. repeat split.
Qed.

Lemma nothing_contributed_under_zero_cap (self : PublicKey) (rs : list Request) :
  forall c,
    hardCap (zkapp c) = 0 ->
    Forall (fun r => 0 <= req_balance r) rs ->
    Forall (fun r => 0 <= asked r) rs ->
    Forall (fun e => contributedAmount e = 0) (eventLog c) ->
    Forall (fun e => contributedAmount e = 0) (eventLog (run self c rs)).
Proof.
  induction rs as [|r rs IH]; intros c Hcap Hbal Hask Hlog.
  - exact Hlog.
  - rewrite run_cons. inversion Hbal as [|? ? Hr Hrs]; subst.
    inversion Hask as [|? ? Ha Has]; subst.
    apply IH; [rewrite exec_hardCap; exact Hcap | exact Hrs | exact Has |].
    rewrite exec_eventLog. apply Forall_app. split; [exact Hlog|].
    destruct (successful self c r) eqn:Hs; [|constructor].
    constructor; [|constructor].
    unfold eventOf, asked in *. destruct (req_method r) as [amt|] eqn:Hm; [|reflexivity].
    cbn [contributedAmount].
    apply applied_successful in Hs. rewrite Hm in Hs. cbn [method] in Hs.
    apply contribute_done in Hs. cbv zeta in Hs. destruct Hs as (Hrange & _).
    cbn [contextOf state balance] in Hrange. unfold InUInt64 in Hrange.
    rewrite clamp_min. lia.
Qed.

(** X2. [deploy] checks none of its arguments: it accepts [hardCap = 0], and
    a campaign deployed that way never takes anything in: whatever calls
    follow, every Contributed event in its log carries the amount 0 (the
    ledger's balance and the amounts asked being non-negative). *)
Theorem zero_cap_campaign_takes_nothing_in
    (self : PublicKey) (ctx : Context) (d m : Z) (rs : list Request) :
  Forall (fun r => 0 <= req_balance r) rs ->
  Forall (fun r => 0 <= asked r) rs ->
  call (deploy d m 0) ctx = Done tt (settled (deploy d m 0) ctx) /\
  hardCap (zkapp (deployChain ctx d m 0)) = 0 /\
  Forall (fun e => contributedAmount e = 0)
    (eventLog (run self (deployChain ctx d m 0) rs)).
Proof.
  intros Hbal Hask. split; [reflexivity|]. split; [reflexivity|].
  apply nothing_contributed_under_zero_cap; [reflexivity | exact Hbal | exact Hask |].
  cbn. constructor; [reflexivity | constructor].
Qed.

(** A contribution of 600 to a zero-cap campaign is accepted and logged
    with the amount 0. *)
Lemma zero_cap_campaign_takes_nothing_in_witness :
  eventLog (run Scenario.campaignKey
     (deployChain (Scenario.at_ (Scenario.campaign 0) 0 1 Scenario.investorKey) 100 10 0)
     [Scenario.request Scenario.backerKey 50 0 (Contribute 600)])
  = [ Deploy Scenario.investorKey 100 10 0 1; Contributed Scenario.backerKey 0 50 ] /\
  Forall (fun e => contributedAmount e = 0)
    (eventLog (run Scenario.campaignKey
       (deployChain (Scenario.at_ (Scenario.campaign 0) 0 1 Scenario.investorKey) 100 10 0)
       [Scenario.request Scenario.backerKey 50 0 (Contribute 600)])).
Proof.
  split; [reflexivity|].
  refine (proj2 (proj2 (zero_cap_campaign_takes_nothing_in Scenario.campaignKey
    (Scenario.at_ (Scenario.campaign 0) 0 1 Scenario.investorKey) 100 10
    [Scenario.request Scenario.backerKey 50 0 (Contribute 600)] _ _))).
  - constructor; [cbn; lia | constructor].
  - constructor; [cbn; lia | constructor].
Defined.

(** X3. [contribute(amount)] is accepted exactly when the balance is at
    most [hardCap], whatever the height, the signer and the minimum
    investment; it then charges the smaller of the amount asked and the room
    left: between 0 and the amount asked, at most the room, and 0 only when
    0 was asked or no room is left. *)
Theorem contribute_accepted_iff_balance_within_cap (amt : Z) (ctx : Context) :
  wfContext ctx ->
  0 <= amt ->
  (succeeds (contribute amt) ctx <-> balance ctx <= hardCap (state ctx)) /\
  (forall tx,
     call (contribute amt) ctx = Done tt tx ->
     exists paid,
       transfers tx = [{| from := sender ctx; to := address ctx; amount := paid |}] /\
       paid = Z.min amt (hardCap (state ctx) - balance ctx) /\
       0 <= paid <= amt /\
       paid <= hardCap (state ctx) - balance ctx /\
       (paid = 0 <-> amt = 0 \/ balance ctx = hardCap (state ctx))).
Proof.
  intros Hwf Hamt. split.
  - unfold succeeds. rewrite contribute_cases.
    split_tests; unfold_ranges; cbn zeta; split.
    + intros _. lia.
    + intros _. do 2 eexists. reflexivity.
    + intros (a & tx & H). discriminate H.
    + intros Hle. exfalso. lia.
  - intros tx Hcall. apply contribute_done in Hcall. cbv zeta in Hcall.
    destruct Hcall as (Hrange & ->).
    exists (clamp amt (hardCap (state ctx)) (balance ctx)).
    split; [reflexivity|]. rewrite clamp_min. unfold InUInt64 in Hrange. lia.
Qed.

(** Below the minimum investment of 10, after the deadline, 9 is charged. *)
Lemma contribute_accepted_iff_balance_within_cap_witness :
  succeeds (contribute 9)
    (Scenario.at_ (Scenario.campaign 0) 0 150 Scenario.backerKey).
Proof.
  assert (Hwf : wfContext (Scenario.at_ (Scenario.campaign 0) 0 150 Scenario.backerKey)).
  { unfold_ranges. cbn. lia. }
  apply (proj1 (contribute_accepted_iff_balance_within_cap 9 _ Hwf ltac:(lia))).
  cbn. lia.
Defined.

(** X4. When the amount asked is at least the room left, an accepted
    [contribute] brings the campaign's balance to exactly [hardCap]; with
    that balance every later [contribute] on the same state is still
    accepted, whoever signs and at whatever height, and it transfers 0 and
    logs a Contributed event of amount 0. *)
Theorem contribution_filling_the_cap_leaves_no_room
    (amt : Z) (ctx : Context) (tx : Tx) :
  sender ctx <> address ctx ->
  hardCap (state ctx) - balance ctx <= amt ->
  call (contribute amt) ctx = Done tt tx ->
  balanceAfter (address ctx) (balance ctx) (transfers tx) = hardCap (state ctx) /\
  forall amt' who height,
    0 <= amt' ->
    call (contribute amt')
      {| address := address ctx; state := state ctx;
         balance := balanceAfter (address ctx) (balance ctx) (transfers tx);
         blockchainLength := height; sender := who |}
    = Done tt (transferred who (address ctx) 0 (Contributed who 0 height)).
Proof.
  intros Hself Hfill Hcall. apply contribute_done in Hcall. cbv zeta in Hcall.
  destruct Hcall as (Hrange & ->). cbn [transfers].
  assert (Hfull : balanceAfter (address ctx) (balance ctx)
            [{| from := sender ctx; to := address ctx;
                amount := clamp amt (hardCap (state ctx)) (balance ctx) |}]
          = hardCap (state ctx)).
  { unfold balanceAfter, applyTransfer; cbn.
    rewrite (proj2 (PublicKey_equals_neq _ _) Hself), PublicKey_equals_refl.
    rewrite clamp_min. unfold InUInt64 in Hrange. lia. }
  rewrite Hfull. split; [reflexivity|].
  intros amt' who height Hamt'. rewrite contribute_cases.
  cbn [address state balance blockchainLength sender]. cbv zeta.
  rewrite Z.sub_diag. cbn [inUInt64 Z.leb Z.compare andb negb UInt64_MAXINT].
  assert (Hzero : clamp amt' (hardCap (state ctx)) (hardCap (state ctx)) = 0).
  { rewrite clamp_min. lia. }
  rewrite Hzero. reflexivity.
Qed.

(** 500 asked with 400 of room fills the cap; 10 asked afterwards is
    accepted and takes 0. *)
Lemma contribution_filling_the_cap_leaves_no_room_witness :
  call (contribute 10) (Scenario.at_ (Scenario.campaign 0) 1000 70 Scenario.backerKey)
  = Done tt (transferred Scenario.backerKey Scenario.campaignKey 0
               (Contributed Scenario.backerKey 0 70)).
Proof.
  exact (proj2 (contribution_filling_the_cap_leaves_no_room 500
    (Scenario.at_ (Scenario.campaign 0) 600 60 Scenario.backerKey) _
    ltac:(discriminate) ltac:(cbn; lia) eq_refl) 10 Scenario.backerKey 70 ltac:(lia)).
Defined.

Lemma exec_onSchedule (self : PublicKey) (c : Chain) (r : Request) (H : Z) :
  req_height r <= H ->
  onSchedule H (zkapp c) -> onSchedule H (zkapp (exec self c r)).
Proof.
  intros Hh Hon. unfold onSchedule in *.
  rewrite exec_withdrawnCnt, exec_deadline.
  destruct (req_method r) as [amt|] eqn:Hm; cbn [isWithdraw andb].
  - rewrite Z.add_0_r. exact Hon.
  - destruct (successful self c r) eqn:Hs; [|rewrite Z.add_0_r; exact Hon].
    apply applied_successful in Hs. rewrite Hm in Hs. cbn [method] in Hs.
    apply withdraw_done in Hs. cbv zeta in Hs.
    destruct Hs as ((_ & _ & Hdl & Hgate) & _).
    cbn [contextOf state blockchainLength] in Hdl, Hgate. lia.
Qed.

(** X5. In any sequence of calls made at heights up to [H], the withdrawal
    counter never runs ahead of the schedule: if it is on schedule before,
    it is on schedule after, and it is then at most
    [1 + (H - deadline) / 200] (and 0 when that is negative). *)
Theorem withdrawals_never_run_ahead_of_schedule
    (self : PublicKey) (H : Z) (rs : list Request) (c : Chain) :
  Forall (fun r => req_height r <= H) rs ->
  onSchedule H (zkapp c) ->
  onSchedule H (zkapp (run self c rs)) /\
  withdrawnCnt (zkapp (run self c rs))
    <= Z.max 0 (1 + (H - deadline (zkapp c)) / 200).
Proof.
  intros Hhs Hon.
  assert (Hinv : onSchedule H (zkapp (run self c rs))).
  { revert c Hon. induction Hhs as [|r rs Hr Hrs IH]; intros c Hon.
    - exact Hon.
    - rewrite run_cons. apply IH. apply exec_onSchedule; assumption. }
  split; [exact Hinv|].
  pose proof (run_configuration self rs c) as Hcfg.
  unfold configuration in Hcfg. injection Hcfg as _ Hd _ _.
  unfold onSchedule in Hinv. rewrite Hd in Hinv.
  destruct Hinv as [Hz | Hgate]; [lia|].
  assert (withdrawnCnt (zkapp (run self c rs)) - 1
          <= (H - deadline (zkapp c)) / 200).
  { apply Z.div_le_lower_bound; lia. }
  lia.
Qed.

Lemma withdrawals_never_run_ahead_of_schedule_witness :
  withdrawnCnt (zkapp (run Scenario.campaignKey Scenario.deployed Scenario.calls))
  <= Z.max 0 (1 + (350 - 100) / 200).
Proof.
  refine (proj2 (withdrawals_never_run_ahead_of_schedule Scenario.campaignKey 350
    Scenario.calls Scenario.deployed _ _)).
  - repeat constructor; cbn; lia.
  - left. cbn. lia.
Defined.

Lemma withdrawnTotal_app (l1 l2 : list Event) :
  withdrawnTotal (l1 ++ l2) = withdrawnTotal l1 + withdrawnTotal l2.
Proof.
  induction l1 as [|e l1 IH]; cbn [app withdrawnTotal]; [lia|].
  destruct e; rewrite IH; lia.
Qed.

Lemma exec_withdrawnTotal (self : PublicKey) (c : Chain) (r : Request) :
  withdrawnTotal (eventLog (exec self c r)) =
  withdrawnTotal (eventLog c) +
  (if isWithdraw (req_method r) && successful self c r
   then hardCap (zkapp c) * percentage (withdrawnCnt (zkapp c)) / 100 else 0).
Proof.
  rewrite exec_eventLog, withdrawnTotal_app. unfold eventOf.
  destruct (req_method r); destruct (successful self c r); cbn; lia.
Qed.

Lemma payoutUpTo_step (cap k : Z) :
  0 <= k ->
  payoutUpTo cap (k + 1) = payoutUpTo cap k + cap * percentage k / 100.
Proof.
  intros Hk. unfold payoutUpTo, percentage.
  destruct (Z.leb_spec (k + 1) 0); [lia|].
  destruct (Z.leb_spec k 0); destruct (Z.eqb_spec k 0); lia.
Qed.

Lemma run_withdrawnTotal (self : PublicKey) (rs : list Request) :
  forall c,
    0 <= withdrawnCnt (zkapp c) ->
    withdrawnTotal (eventLog (run self c rs)) =
    withdrawnTotal (eventLog c)
    + payoutUpTo (hardCap (zkapp c)) (withdrawnCnt (zkapp (run self c rs)))
    - payoutUpTo (hardCap (zkapp c)) (withdrawnCnt (zkapp c)).
Proof.
  induction rs as [|r rs IH]; intros c Hk.
  - cbn. lia.
  - rewrite run_cons.
    assert (Hk' : 0 <= withdrawnCnt (zkapp (exec self c r))).
    { rewrite exec_withdrawnCnt. destruct (isWithdraw _ && successful _ _ _); lia. }
    rewrite (IH _ Hk'), exec_hardCap, exec_withdrawnTotal.
    rewrite (exec_withdrawnCnt self c r).
    destruct (isWithdraw (req_method r) && successful self c r).
    + rewrite (payoutUpTo_step _ _ Hk). lia.
    + rewrite !Z.add_0_r. lia.
Qed.

(** X6. Over any sequence of calls the amounts of the Withdrawn events add
    up to what the schedule fixes for the withdrawals made: 20 percent of
    [hardCap] for the first one and 10 percent for each later one, each
    rounded down, whatever the balance was. *)
Theorem withdrawn_total_follows_the_count
    (self : PublicKey) (rs : list Request) (c : Chain) :
  0 <= withdrawnCnt (zkapp c) ->
  withdrawnTotal (eventLog (run self c rs)) =
  withdrawnTotal (eventLog c)
  + payoutUpTo (hardCap (zkapp c)) (withdrawnCnt (zkapp (run self c rs)))
  - payoutUpTo (hardCap (zkapp c)) (withdrawnCnt (zkapp c)).
Proof.
  revert c. induction rs as [|r rs IH]; intros c Hk.
  - cbn. lia.
  - rewrite run_cons.
    assert (Hk' : 0 <= withdrawnCnt (zkapp (exec self c r))).
    { rewrite exec_withdrawnCnt. destruct (isWithdraw _ && successful _ _ _); lia. }
    rewrite (IH _ Hk'), exec_hardCap, exec_withdrawnTotal.
    rewrite (exec_withdrawnCnt self c r).
    destruct (isWithdraw (req_method r) && successful self c r).
    + rewrite (payoutUpTo_step _ _ Hk). lia.
    + rewrite !Z.add_0_r. lia.
Qed.

Lemma withdrawn_total_follows_the_count_witness :
  withdrawnTotal
    (eventLog (run Scenario.campaignKey Scenario.deployed Scenario.calls)) = 300.
Proof.
  rewrite (withdrawn_total_follows_the_count Scenario.campaignKey Scenario.calls
    Scenario.deployed ltac:(cbn; lia)).
  reflexivity.
Defined.

(** X7. Nothing caps what the withdrawals pay in total: in a campaign
    deployed with a hard cap that is a positive multiple of 10, once ten
    withdrawals have been made the Withdrawn amounts add up to more than
    [hardCap]. *)
Theorem ten_withdrawals_pay_more_than_the_cap
    (self : PublicKey) (ctx : Context) (d m q : Z) (rs : list Request) :
  0 < q ->
  10 <= withdrawnCnt (zkapp (run self (deployChain ctx d m (10 * q)) rs)) ->
  10 * q < withdrawnTotal (eventLog (run self (deployChain ctx d m (10 * q)) rs)).
Proof.
  intros Hq Hten.
  rewrite (run_withdrawnTotal self rs (deployChain ctx d m (10 * q)));
    [|cbn; lia].
  change (withdrawnTotal (eventLog (deployChain ctx d m (10 * q)))) with 0.
  change (hardCap (zkapp (deployChain ctx d m (10 * q)))) with (10 * q).
  change (withdrawnCnt (zkapp (deployChain ctx d m (10 * q)))) with 0.
  set (k := withdrawnCnt (zkapp (run self (deployChain ctx d m (10 * q)) rs))) in *.
  unfold payoutUpTo. destruct (Z.leb_spec k 0); [lia|]. cbn [Z.leb Z.compare].
  replace (10 * q * 20) with (2 * q * 100) by lia.
  replace (10 * q * 10) with (q * 100) by lia.
  rewrite !Z.div_mul by lia. nia.
Qed.

(** Ten withdrawals at the earliest heights the schedule allows. *)
Lemma ten_withdrawals_pay_more_than_the_cap_witness :
  1000 < withdrawnTotal (eventLog (run Scenario.campaignKey
    (deployChain (Scenario.at_ (Scenario.campaign 0) 0 1 Scenario.investorKey)
       100 10 (10 * 100))
    (map (fun k => Scenario.request Scenario.investorKey (100 + 200 * k) 1000 Withdraw)
       [0; 1; 2; 3; 4; 5; 6; 7; 8; 9]))).
Proof.
  apply (ten_withdrawals_pay_more_than_the_cap Scenario.campaignKey
    (Scenario.at_ (Scenario.campaign 0) 0 1 Scenario.investorKey) 100 10 100).
  - lia.
  - vm_compute. discriminate.
Defined.

(** X8. The event log only grows: after any sequence of calls it is the
    log from before followed by one event for each successful call, in
    order, and none of the new events is a Deploy event. *)
Theorem event_log_only_grows (self : PublicKey) (c : Chain) (rs : list Request) :
  exists new,
    eventLog (run self c rs) = (eventLog c ++ new)%list /\
    List.length new = successfulCalls self c rs /\
    Forall (fun e => isDeploy e = false) new.
Proof.
  revert c. induction rs as [|r rs IH]; intros c.
  - exists []. rewrite app_nil_r. repeat split. constructor.
  - rewrite run_cons. destruct (IH (exec self c r)) as (new & Hlog & Hlen & Hnd).
    rewrite exec_eventLog in Hlog.
    exists ((if successful self c r then [eventOf self c r] else []) ++ new)%list.
    split; [rewrite Hlog, app_assoc; reflexivity|].
    cbn [successfulCalls]. rewrite length_app, Hlen.
    split.
    + destruct (successful self c r); reflexivity.
    + apply Forall_app. split; [|exact Hnd].
      destruct (successful self c r); [|constructor].
      constructor; [|constructor]. unfold eventOf. destruct (req_method r); reflexivity.
Qed.


Lemma div100_bounds (a : Z) :
  0 <= a -> 0 <= a / 100 /\ 100 * (a / 100) <= a < 100 * (a / 100) + 100.
Proof.
  intros Ha. pose proof (Z.div_mod a 100 ltac:(lia)) as Hdm.
  pose proof (Z.mod_pos_bound a 100 ltac:(lia)) as Hmod. lia.
Qed.

(** X10. The amount of an accepted [withdraw] is the percentage of
    [hardCap] rounded down: it is between 0 and [hardCap], it loses less
    than one unit to rounding, and it is 0 exactly when [hardCap] times the
    percentage is below 100; the counter advances all the same. *)
Theorem withdraw_amount_is_rounded_down (ctx : Context) (tx : Tx) :
  call withdraw ctx = Done tt tx ->
  exists paid,
    transfers tx = [{| from := address ctx; to := sender ctx; amount := paid |}] /\
    0 <= paid <= hardCap (state ctx) /\
    100 * paid <= hardCap (state ctx) * percentage (withdrawnCnt (state ctx))
      < 100 * paid + 100 /\
    (paid = 0 <->
     hardCap (state ctx) * percentage (withdrawnCnt (state ctx)) < 100) /\
    withdrawnCnt (commit (state ctx) tx) = withdrawnCnt (state ctx) + 1.
Proof.
  intros Hcall. apply withdraw_done in Hcall. cbv zeta in Hcall.
  destruct Hcall as (_ & _ & Hrange & ->).
  eexists. split; [reflexivity|]. cbn [commit withdrawnCnt set_withdrawnCnt override].
  unfold InUInt64, UInt64_MAXINT in Hrange. unfold percentage in *. revert Hrange.
  destruct (Z.eqb_spec (withdrawnCnt (state ctx)) 0); intros Hrange;
    match goal with
    | |- context [?a / 100] => pose proof (div100_bounds a ltac:(lia))
    end;
    repeat split; lia.
Qed.

(** With a hard cap of 4 the first withdrawal pays 0 and is counted. *)
Lemma withdraw_amount_is_rounded_down_witness :
  exists tx,
    call withdraw
      {| address := Scenario.campaignKey;
         state := {| investor := Scenario.investorKey; deadline := 100;
                     minimumInvestment := 1; hardCap := 4; withdrawnCnt := 0 |};
         balance := 4; blockchainLength := 150; sender := Scenario.investorKey |}
    = Done tt tx /\
    transfers tx =
      [{| from := Scenario.campaignKey; to := Scenario.investorKey; amount := 0 |}] /\
    set_withdrawnCnt tx = Some 1.
Proof.
  eexists. split; [reflexivity|].
  destruct (withdraw_amount_is_rounded_down
    {| address := Scenario.campaignKey;
       state := {| investor := Scenario.investorKey; deadline := 100;
                   minimumInvestment := 1; hardCap := 4; withdrawnCnt := 0 |};
       balance := 4; blockchainLength := 150; sender := Scenario.investorKey |}
    _ eq_refl) as (paid & Ht & _ & _ & Hzero & _).
  split; [|reflexivity]. rewrite Ht. f_equal. f_equal.
  apply Hzero. cbn. lia.
Defined.

(** The checked products and differences of an accepted [withdraw]. *)
Lemma withdraw_done_ranges (ctx : Context) (tx : Tx) :
  call withdraw ctx = Done tt tx ->
  InUInt32 (blockchainLength ctx - deadline (state ctx)) /\
  InUInt32 (withdrawnCnt (state ctx) * 200) /\
  InUInt32 (withdrawnCnt (state ctx) + 1).
Proof.
  intros Hcall. pose proof (withdraw_cases ctx) as Hc. cbv zeta in Hc.
  rewrite Hc in Hcall. clear Hc. revert Hcall.
  split_tests; try discriminate; intros _; repeat split;
    first [apply E0 | apply E1 | apply E2].
Qed.

Lemma exec_minimumInvestment (self : PublicKey) (c : Chain) (r : Request) :
  minimumInvestment (zkapp (exec self c r)) = minimumInvestment (zkapp c).
Proof.
  pose proof (exec_configuration self c r) as H. unfold configuration in H.
  inversion H. reflexivity.
Qed.

Lemma exec_wfState (self : PublicKey) (c : Chain) (r : Request) :
  wfState (zkapp c) -> wfState (zkapp (exec self c r)).
Proof.
  unfold wfState. intros (Hd & Hm & Hc & Hn).
  rewrite exec_deadline, exec_minimumInvestment, exec_hardCap.
  repeat split; try first [apply Hd | apply Hm | apply Hc].
  all: rewrite exec_withdrawnCnt;
    destruct (isWithdraw (req_method r) && successful self c r) eqn:Hw;
    [|rewrite Z.add_0_r; apply Hn].
  all: apply andb_true_iff in Hw; destruct Hw as (Hm' & Hs);
    destruct (req_method r) eqn:Hmeth; [discriminate|];
    apply applied_successful in Hs; rewrite Hmeth in Hs; cbn [method] in Hs;
    apply withdraw_done_ranges in Hs; destruct Hs as (_ & _ & Hnext);
    cbn [contextOf state] in Hnext; apply Hnext.
Qed.

Lemma eventOf_amountInRange (self : PublicKey) (c : Chain) (r : Request) :
  InUInt64 (asked r) ->
  successful self c r = true -> amountInRange (eventOf self c r).
Proof.
  intros Hask Hs. apply applied_successful in Hs.
  unfold eventOf, asked in *.
  destruct (req_method r) as [amt|]; cbn [method amountInRange] in *.
  - apply contribute_done in Hs. cbv zeta in Hs.
    destruct Hs as (Hrange & _). cbn [contextOf state balance] in Hrange.
    rewrite clamp_min. unfold InUInt64 in *. lia.
  - apply withdraw_done in Hs. cbv zeta in Hs.
    destruct Hs as (_ & _ & Hrange & _). cbn [contextOf state] in Hrange.
    unfold InUInt64 in *.
    pose proof (div100_bounds _ (proj1 Hrange)). lia.
Qed.

(** X11. Values stay in range: if the state fields are valid UInt32 and
    UInt64 values and every amount logged so far is a UInt64, the same
    holds after any sequence of calls (the ledger's balance being
    non-negative and every amount asked being a UInt64): the counter cannot
    wrap around and no event carries an amount outside 64 bits. *)
Theorem values_stay_in_range (self : PublicKey) (rs : list Request) (c : Chain) :
  wfState (zkapp c) ->
  Forall amountInRange (eventLog c) ->
  Forall (fun r => 0 <= req_balance r) rs ->
  Forall (fun r => InUInt64 (asked r)) rs ->
  wfState (zkapp (run self c rs)) /\
  Forall amountInRange (eventLog (run self c rs)).
Proof.
  intros Hwf Hlog _ Hask. revert c Hwf Hlog.
  induction Hask as [|r rs Hr Hrs IH]; intros c Hwf Hlog.
  - split; assumption.
  - rewrite run_cons. apply IH.
    + apply exec_wfState. exact Hwf.
    + rewrite exec_eventLog. apply Forall_app. split; [exact Hlog|].
      destruct (successful self c r) eqn:Hs; [|constructor].
      constructor; [|constructor]. apply eventOf_amountInRange; assumption.
Qed.

Lemma values_stay_in_range_witness :
  wfState (zkapp (run Scenario.campaignKey Scenario.deployed Scenario.calls)).
Proof.
  refine (proj1 (values_stay_in_range Scenario.campaignKey Scenario.calls
    Scenario.deployed _ _ _ _)).
  - unfold_ranges. cbn. lia.
  - repeat constructor.
  - repeat constructor; cbn; lia.
  - unfold InUInt64, UInt64_MAXINT. repeat constructor; cbn; lia.
Defined.

(** [ensureWithdraw], assertion by assertion. *)
Lemma ensureWithdraw_cases (ctx : Context) :
  let cnt := withdrawnCnt (state ctx) in
  let since := blockchainLength ctx - deadline (state ctx) in
  call ensureWithdraw ctx =
  if negb (PublicKey_equals (sender ctx) (investor (state ctx))) then
    Abort (AssertFailed "Only investor can withdraw") emptyTx
  else if negb (0 <? balance ctx) then
    Abort (AssertFailed "No balance to withdraw") emptyTx
  else if negb (deadline (state ctx) <=? blockchainLength ctx) then
    Abort (AssertFailed "Deadline reached") emptyTx
  else if negb (inUInt32 since) then
    Abort (OutOfRange "UInt32.sub") emptyTx
  else if negb (inUInt32 (cnt * 200)) then
    Abort (OutOfRange "UInt32.mul") emptyTx
  else if negb ((cnt =? 0) || (cnt * 200 <=? since)) then
    Abort (AssertFailed "Withdrawal not allowed") emptyTx
  else if negb (inUInt32 (cnt + 1)) then
    Abort (OutOfRange "UInt32.add") emptyTx
  else
    Done (percentage cnt)
      {| set_investor := None; set_deadline := None;
         set_minimumInvestment := None; set_hardCap := None;
         set_withdrawnCnt := Some (cnt + 1); set_permissions := None;
         transfers := []; events := [] |}.
Proof.
  unfold_method. unfold percentage, emptyTx.
  repeat (case_if; simpl; try reflexivity; try discriminate).
Qed.

(** X12. [ensureWithdraw] by itself is accepted if and only if the four
    withdrawal preconditions hold, with no further condition; it then
    returns 20 when no withdrawal was made before and 10 otherwise, and the
    one thing it records is the counter raised by one: no transfer and no
    event. *)
Theorem ensureWithdraw_accepts_iff_preconditions (ctx : Context) :
  wfContext ctx ->
  (succeeds ensureWithdraw ctx <-> withdrawPreconditions ctx) /\
  (forall pct tx,
     call ensureWithdraw ctx = Done pct tx ->
     pct = (if withdrawnCnt (state ctx) =? 0 then 20 else 10) /\
     set_withdrawnCnt tx = Some (withdrawnCnt (state ctx) + 1) /\
     transfers tx = [] /\ events tx = [] /\
     commit (state ctx) tx =
       {| investor := investor (state ctx); deadline := deadline (state ctx);
          minimumInvestment := minimumInvestment (state ctx);
          hardCap := hardCap (state ctx);
          withdrawnCnt := withdrawnCnt (state ctx) + 1 |}).
Proof.
  intros Hwf. unfold succeeds, withdrawPreconditions.
  pose proof (ensureWithdraw_cases ctx) as Hc. cbv zeta in Hc. rewrite Hc. clear Hc.
  unfold percentage. split.
  - split_tests; unfold_ranges; settle.
  - intros pct tx.
    repeat (case_if; try discriminate).
    all: intros Heq; injection Heq as <- <-; repeat split.
Qed.

Lemma ensureWithdraw_accepts_iff_preconditions_witness :
  succeeds ensureWithdraw
    (Scenario.at_ Scenario.hugeCampaign 1 150 Scenario.investorKey).
Proof.
  assert (Hwf : wfContext (Scenario.at_ Scenario.hugeCampaign 1 150 Scenario.investorKey)).
  { unfold_ranges. cbn. lia. }
  apply (proj1 (ensureWithdraw_accepts_iff_preconditions _ Hwf)).
  unfold withdrawPreconditions. cbn.
  repeat split; first [lia | left; reflexivity].
Defined.

(** X13. [calculateAmount] by itself writes nothing; while the balance is
    at most [hardCap] it returns the smaller of the amount and the room
    left (0 when the cap is met exactly), and with a balance above
    [hardCap] it is stopped by the range check of its subtraction. *)
Theorem calculateAmount_alone (amt : Z) (ctx : Context) :
  wfContext ctx ->
  (balance ctx <= hardCap (state ctx) ->
     call (calculateAmount amt) ctx
     = Done (Z.min amt (hardCap (state ctx) - balance ctx)) emptyTx) /\
  (balance ctx = hardCap (state ctx) -> 0 <= amt ->
     call (calculateAmount amt) ctx = Done 0 emptyTx) /\
  (hardCap (state ctx) < balance ctx ->
     call (calculateAmount amt) ctx = Abort (OutOfRange "UInt64.sub") emptyTx).
Proof.
  intros Hwf. rewrite <- clamp_min. unfold clamp. unfold_method.
  split_tests; unfold_ranges; repeat split; intros;
    first [reflexivity | f_equal; lia | exfalso; lia].
Qed.

Lemma calculateAmount_alone_witness :
  call (calculateAmount 500) (Scenario.at_ (Scenario.campaign 0) 1001 60 Scenario.backerKey)
  = Abort (OutOfRange "UInt64.sub") emptyTx.
Proof.
  assert (Hwf : wfContext (Scenario.at_ (Scenario.campaign 0) 1001 60 Scenario.backerKey)).
  { unfold_ranges. cbn. lia. }
  apply (proj2 (proj2 (calculateAmount_alone 500 _ Hwf))). cbn. lia.
Defined.

(** A successful call requests exactly its transfer, any other call none. *)
Lemma applied_transfers (self : PublicKey) (c : Chain) (r : Request) :
  transfers (applied self c r) =
  if successful self c r then [transferOf self c r] else [].
Proof.
  destruct (successful self c r) eqn:Hs.
  - apply applied_successful in Hs. unfold transferOf.
    destruct (req_method r) as [amt|]; cbn [method] in Hs.
    + apply contribute_done in Hs. cbv zeta in Hs.
      destruct Hs as (_ & ->). reflexivity.
    + apply withdraw_done in Hs. cbv zeta in Hs.
      destruct Hs as (_ & _ & _ & ->). reflexivity.
  - rewrite (applied_unsuccessful _ _ _ Hs). reflexivity.
Qed.

Lemma fundedExec_under_cap (self : PublicKey) (c : Chain) (bal : Z) (r : Request) :
  bal <= hardCap (zkapp c) ->
  snd (fundedExec self (c, bal) r) <= hardCap (zkapp c) /\
  hardCap (zkapp (fst (fundedExec self (c, bal) r))) = hardCap (zkapp c).
Proof.
  intros Hle. unfold fundedExec. cbn [fst snd].
  split; [|apply exec_hardCap].
  rewrite applied_transfers.
  destruct (successful self c (withFunds r bal)) eqn:Hs; [|exact Hle].
  apply applied_successful in Hs. unfold transferOf, balanceAfter, applyTransfer.
  cbn [withFunds req_method req_sender req_balance] in *.
  destruct (req_method r) as [amt|]; cbn [method fold_left from to amount] in *.
  - apply contribute_done in Hs. cbv zeta in Hs.
    destruct Hs as (Hroom & _). cbn [contextOf state balance req_balance] in Hroom.
    unfold InUInt64 in Hroom.
    rewrite PublicKey_equals_refl, clamp_min.
    destruct (PublicKey_equals (req_sender r) self); lia.
  - apply withdraw_done in Hs. cbv zeta in Hs.
    destruct Hs as (_ & _ & Hrange & _). cbn [contextOf state] in Hrange.
    rewrite PublicKey_equals_refl.
    pose proof (div100_bounds _ (proj1 Hrange)).
    destruct (PublicKey_equals (req_sender r) self); lia.
Qed.

(** X14. When the campaign's balance changes by nothing but the transfers
    of the calls themselves, a balance that is at most [hardCap] stays at
    most [hardCap] through any sequence of [contribute] and [withdraw]
    calls, whoever signs them. *)
Theorem balance_never_exceeds_the_cap
    (self : PublicKey) (rs : list Request) (c : Chain) (bal : Z) :
  bal <= hardCap (zkapp c) ->
  snd (fundedRun self c bal rs) <= hardCap (zkapp c).
Proof.
  intros Hle.
  assert (Hboth : snd (fundedRun self c bal rs) <= hardCap (zkapp c) /\
                  hardCap (zkapp (fst (fundedRun self c bal rs))) = hardCap (zkapp c)).
  { revert c bal Hle. induction rs as [|r rs IH]; intros c bal Hle.
    - split; [exact Hle | reflexivity].
    - unfold fundedRun. cbn [fold_left].
      destruct (fundedExec_under_cap self c bal r Hle) as (Hstep & Hcap).
      destruct (fundedExec self (c, bal) r) as [c' bal'] eqn:Hfe. cbn [fst snd] in *.
      rewrite <- Hcap in Hstep. destruct (IH c' bal' Hstep) as (Hfin & Hcap').
      unfold fundedRun in Hfin, Hcap'. rewrite Hcap' in *. rewrite Hcap in *.
      split; [exact Hfin | reflexivity]. }
  exact (proj1 Hboth).
Qed.

Lemma balance_never_exceeds_the_cap_witness :
  snd (fundedRun Scenario.campaignKey Scenario.deployed 0 Scenario.calls) <= 1000.
Proof.
  exact (balance_never_exceeds_the_cap Scenario.campaignKey Scenario.calls
    Scenario.deployed 0 ltac:(cbn; lia)).
Defined.

Lemma exec_under_ceiling (self : PublicKey) (c : Chain) (r : Request) :
  withdrawnCnt (zkapp c) <= lastWithdrawalCount + 1 ->
  withdrawnCnt (zkapp (exec self c r)) <= lastWithdrawalCount + 1.
Proof.
  intros Hle. rewrite exec_withdrawnCnt.
  destruct (isWithdraw (req_method r) && successful self c r) eqn:Hw; [|lia].
  apply andb_true_iff in Hw. destruct Hw as (Hm & Hs).
  destruct (req_method r) eqn:Hmeth; [discriminate|].
  apply applied_successful in Hs. rewrite Hmeth in Hs. cbn [method] in Hs.
  apply withdraw_done_ranges in Hs. destruct Hs as (_ & Hmul & _).
  cbn [contextOf state] in Hmul.
  unfold InUInt32, UInt32_MAXINT in Hmul. unfold lastWithdrawalCount in *. lia.
Qed.

(** X15. The counter has a ceiling: [withdrawnCnt.mul(200)] must fit 32
    bits, so a [withdraw] is rejected at every height once [withdrawnCnt]
    exceeds 21474836, and over any sequence of calls a counter that is at
    most 21474837 stays at most 21474837. *)
Theorem withdrawal_counter_has_a_ceiling
    (self : PublicKey) (rs : list Request) (c : Chain) :
  withdrawnCnt (zkapp c) <= lastWithdrawalCount + 1 ->
  withdrawnCnt (zkapp (run self c rs)) <= lastWithdrawalCount + 1 /\
  (forall r, lastWithdrawalCount < withdrawnCnt (zkapp (run self c rs)) ->
             ~ succeeds withdraw (contextOf self (run self c rs) r)).
Proof.
  intros Hle. split.
  - revert c Hle. induction rs as [|r rs IH]; intros c Hle.
    + exact Hle.
    + rewrite run_cons. apply IH. apply exec_under_ceiling. exact Hle.
  - intros r Hlast (a & tx & Hcall). destruct a.
    apply withdraw_done_ranges in Hcall. destruct Hcall as (_ & Hmul & _).
    cbn [contextOf state] in Hmul.
    unfold InUInt32, UInt32_MAXINT in Hmul. unfold lastWithdrawalCount in *. lia.
Qed.

Lemma withdrawal_counter_has_a_ceiling_witness :
  ~ succeeds withdraw
      (contextOf Scenario.campaignKey
         (run Scenario.campaignKey
            {| zkapp := Scenario.campaign 21474837; eventLog := [] |} [])
         (Scenario.request Scenario.investorKey 4294967295 1000 Withdraw)).
Proof.
  refine (proj2 (withdrawal_counter_has_a_ceiling Scenario.campaignKey []
    {| zkapp := Scenario.campaign 21474837; eventLog := [] |} _) _ _).
  - unfold lastWithdrawalCount. cbn. lia.
  - unfold lastWithdrawalCount. cbn. lia.
Defined.

(** X16. Two contributions accepted one after the other, the second on the
    balance the first one left: each takes the smaller of its amount and
    the room it finds, and together they take the smaller of the two
    amounts' sum and the room that was left before the first. *)
Theorem two_contributions_in_a_row
    (amt1 amt2 : Z) (ctx : Context) (tx1 tx2 : Tx) (who : PublicKey) (height : Z) :
  sender ctx <> address ctx ->
  0 <= amt2 ->
  call (contribute amt1) ctx = Done tt tx1 ->
  call (contribute amt2)
    {| address := address ctx; state := state ctx;
       balance := balanceAfter (address ctx) (balance ctx) (transfers tx1);
       blockchainLength := height; sender := who |} = Done tt tx2 ->
  exists paid1 paid2,
    transfers tx1 =
      [{| from := sender ctx; to := address ctx; amount := paid1 |}] /\
    transfers tx2 =
      [{| from := who; to := address ctx; amount := paid2 |}] /\
    paid1 = Z.min amt1 (hardCap (state ctx) - balance ctx) /\
    paid2 = Z.min amt2 (hardCap (state ctx) - balance ctx - paid1) /\
    paid1 + paid2 = Z.min (amt1 + amt2) (hardCap (state ctx) - balance ctx).
Proof.
  intros Hself Hamt2 H1 H2.
  apply contribute_done in H1. cbv zeta in H1. destruct H1 as (Hroom & ->).
  cbn [transfers] in H2.
  assert (Hbal : balanceAfter (address ctx) (balance ctx)
            [{| from := sender ctx; to := address ctx;
                amount := clamp amt1 (hardCap (state ctx)) (balance ctx) |}]
          = balance ctx + clamp amt1 (hardCap (state ctx)) (balance ctx)).
  { unfold balanceAfter, applyTransfer; cbn.
    rewrite (proj2 (PublicKey_equals_neq _ _) Hself), PublicKey_equals_refl. lia. }
  rewrite Hbal in H2.
  apply contribute_done in H2. cbv zeta in H2.
  destruct H2 as (_ & ->). cbn [state balance sender address] in *.
  rewrite !clamp_min in *. unfold InUInt64 in Hroom.
  do 2 eexists. repeat split; lia.
Qed.

(** 600 and then 500 under a cap of 1000: 600 and 400 are taken. *)
Lemma two_contributions_in_a_row_witness :
  exists paid1 paid2,
    paid1 = 600 /\ paid2 = 400 /\ paid1 + paid2 = Z.min (600 + 500) (1000 - 0).
Proof.
  destruct (two_contributions_in_a_row 600 500
    (Scenario.at_ (Scenario.campaign 0) 0 50 Scenario.backerKey) _ _
    Scenario.backerKey 60 ltac:(discriminate) ltac:(lia) eq_refl eq_refl)
    as (paid1 & paid2 & _ & _ & Hp1 & Hp2 & Hsum).
  exists paid1, paid2. split; [exact Hp1|]. split; [|exact Hsum].
  rewrite Hp2, Hp1. reflexivity.
Defined.

Lemma contributedTotal_app (l1 l2 : list Event) :
  contributedTotal (l1 ++ l2) = contributedTotal l1 + contributedTotal l2.
Proof.
  induction l1 as [|e l1 IH]; cbn [app contributedTotal]; [lia|].
  destruct e; rewrite IH; lia.
Qed.

Lemma fundedExec_accounts (self : PublicKey) (c : Chain) (bal : Z) (r : Request) :
  req_sender r <> self ->
  snd (fundedExec self (c, bal) r)
    - contributedTotal (eventLog (fst (fundedExec self (c, bal) r)))
    + withdrawnTotal (eventLog (fst (fundedExec self (c, bal) r)))
  = bal - contributedTotal (eventLog c) + withdrawnTotal (eventLog c).
Proof.
  intros Hself. apply PublicKey_equals_neq in Hself.
  unfold fundedExec. cbn [fst snd].
  rewrite applied_transfers, exec_eventLog, contributedTotal_app, withdrawnTotal_app.
  destruct (successful self c (withFunds r bal)); [|cbn; lia].
  unfold transferOf, eventOf, balanceAfter, applyTransfer.
  cbn [withFunds req_method req_sender req_balance req_height].
  destruct (req_method r) as [amt|];
    cbn [fold_left from to amount contributedTotal withdrawnTotal];
    rewrite Hself, PublicKey_equals_refl; lia.
Qed.

(** X17. The log accounts for the balance: when the balance changes by
    nothing but the transfers of the calls and no call is signed with the
    campaign's own key, the balance after any sequence of calls is the
    balance before, plus the Contributed amounts logged meanwhile, minus the
    Withdrawn amounts logged meanwhile. *)
Theorem event_log_accounts_for_the_balance
    (self : PublicKey) (rs : list Request) (c : Chain) (bal : Z) :
  Forall (fun r => req_sender r <> self) rs ->
  snd (fundedRun self c bal rs) =
  bal
  + (contributedTotal (eventLog (fst (fundedRun self c bal rs)))
     - contributedTotal (eventLog c))
  - (withdrawnTotal (eventLog (fst (fundedRun self c bal rs)))
     - withdrawnTotal (eventLog c)).
Proof.
  intros Hrs.
  assert (Hinv :
    snd (fundedRun self c bal rs)
      - contributedTotal (eventLog (fst (fundedRun self c bal rs)))
      + withdrawnTotal (eventLog (fst (fundedRun self c bal rs)))
    = bal - contributedTotal (eventLog c) + withdrawnTotal (eventLog c)).
  { revert c bal. induction Hrs as [|r rs Hr Hrs IH]; intros c bal.
    - reflexivity.
    - unfold fundedRun. cbn [fold_left].
      pose proof (fundedExec_accounts self c bal r Hr) as Hstep.
      destruct (fundedExec self (c, bal) r) as [c' bal']. cbn [fst snd] in Hstep.
      specialize (IH c' bal'). unfold fundedRun in IH. lia. }
  lia.
Qed.

Lemma event_log_accounts_for_the_balance_witness :
  snd (fundedRun Scenario.campaignKey Scenario.deployed 0 Scenario.calls) = 700.
Proof.
  rewrite (event_log_accounts_for_the_balance Scenario.campaignKey Scenario.calls
    Scenario.deployed 0 ltac:(repeat constructor; discriminate)).
  reflexivity.
Defined.

Lemma eventFits_same_configuration (s s' : State) (e : Event) :
  configuration s' = configuration s -> eventFits s e -> eventFits s' e.
Proof.
  unfold configuration. intros Hcfg. injection Hcfg as Hi Hd _ _.
  destruct e; cbn [eventFits]; rewrite ?Hi, ?Hd; exact (fun H => H).
Qed.

Lemma eventOf_fits (self : PublicKey) (c : Chain) (r : Request) :
  successful self c r = true -> eventFits (zkapp c) (eventOf self c r).
Proof.
  intros Hs. apply applied_successful in Hs. unfold eventOf.
  destruct (req_method r) as [amt|]; cbn [method eventFits] in *.
  - exact I.
  - apply withdraw_done in Hs. cbv zeta in Hs.
    destruct Hs as ((Hwho & _ & Hh & _) & _). split; [exact Hwho | exact Hh].
Qed.

(** X18. A log whose Withdrawn events agree with the configuration keeps
    that property through any sequence of calls: every Withdrawn event
    names the investor and a height at least [deadline]. *)
Theorem logged_withdrawals_fit_the_configuration
    (self : PublicKey) (rs : list Request) (c : Chain) :
  Forall (eventFits (zkapp c)) (eventLog c) ->
  Forall (eventFits (zkapp c)) (eventLog (run self c rs)).
Proof.
  revert c. induction rs as [|r rs IH]; intros c Hlog.
  - exact Hlog.
  - rewrite run_cons.
    assert (Hstep : Forall (eventFits (zkapp (exec self c r))) (eventLog (exec self c r))).
    { rewrite exec_eventLog. apply Forall_app. split.
      - eapply Forall_impl; [|exact Hlog]. intros e.
        apply eventFits_same_configuration. apply exec_configuration.
      - destruct (successful self c r) eqn:Hs; [|constructor].
        constructor; [|constructor].
        eapply eventFits_same_configuration; [apply exec_configuration|].
        apply eventOf_fits. exact Hs. }
    specialize (IH _ Hstep).
    eapply Forall_impl; [|exact IH]. intros e.
    apply eventFits_same_configuration. symmetry. apply exec_configuration.
Qed.

Lemma logged_withdrawals_fit_the_configuration_witness :
  Forall (eventFits (Scenario.campaign 0))
    (eventLog (run Scenario.campaignKey Scenario.deployed Scenario.calls)).
Proof.
  apply (logged_withdrawals_fit_the_configuration Scenario.campaignKey Scenario.calls
    Scenario.deployed).
  repeat constructor.
Defined.
